(** * stock.py: moving averages, daily returns and MA crossovers

    A shallow embedding of [src/stock.py] (download_data, compute_indicators,
    find_crossovers, print_summary, plot_data and main) together with the
    pandas operations these functions call, followed by the properties
    stated for them in the specification.

    Cells.  A float64 cell is modelled twice.  [float64] is an exact
    rational, one of the two infinities, or NaN, with a single zero and
    without rounding or overflow; it carries what does not depend on
    rounding: the frames, the crossover detector, which cells reach which
    statistic, and the order of the effects of a run.  [Cells] holds the
    numeric steps of compute_indicators over an arithmetic given as a
    parameter, with the rolling mean as pandas computes it (a running sum
    with Kahan's compensation).  Its instance [binary64] is IEEE 754 double
    precision, the arithmetic the program runs in, and the statements about
    the values of the moving averages and of the returns are made there; its
    instance [exact] is [float64] again, for which the running mean is
    proved to be the mean of the window.

    The pandas operations are modelled with the defaults the program relies
    on: [rolling(window, min_periods).mean()] over the fixed trailing window
    closed on the right, [pct_change()] with [periods=1] and
    [fill_method='pad'], [Series.diff()] with [periods=1], [dropna()] and
    [std()] with [skipna=True]. *)

From Stdlib Require Import QArith Qcanon ZArith List Lia.
From Stdlib Require Floats.SpecFloat.
From stdpp Require Import gmap strings list fin_maps numbers sorting.

Local Open Scope Qc_scope.

(** ** float64 cells *)

Inductive float64 :=
  | Fin (q : Qc)
  | PInf
  | NInf
  | NaN.

(** IEEE comparison: [None] when the operands are unordered (a NaN). *)
Definition fcmp (x y : float64) : option comparison :=
  match x, y with
  | NaN, _ | _, NaN => None
  | Fin a, Fin b => Some (a ?= b)
  | PInf, PInf | NInf, NInf => Some Eq
  | PInf, _ | _, NInf => Some Gt
  | NInf, _ | _, PInf => Some Lt
  end.

Definition fgt (x y : float64) : bool :=
  match fcmp x y with Some Gt => true | _ => false end.
Definition flt (x y : float64) : bool :=
  match fcmp x y with Some Lt => true | _ => false end.
Definition fle (x y : float64) : bool :=
  match fcmp x y with Some Lt | Some Eq => true | _ => false end.
Definition feq (x y : float64) : bool :=
  match fcmp x y with Some Eq => true | _ => false end.

Definition fsub (x y : float64) : float64 :=
  match x, y with
  | NaN, _ | _, NaN => NaN
  | Fin a, Fin b => Fin (a - b)
  | PInf, PInf | NInf, NInf => NaN
  | PInf, _ | _, NInf => PInf
  | NInf, _ | _, PInf => NInf
  end.

Definition fadd (x y : float64) : float64 :=
  match x, y with
  | NaN, _ | _, NaN => NaN
  | Fin a, Fin b => Fin (a + b)
  | PInf, NInf | NInf, PInf => NaN
  | PInf, _ | _, PInf => PInf
  | NInf, _ | _, NInf => NInf
  end.

Definition fneg (x : float64) : float64 :=
  match x with Fin a => Fin (- a) | PInf => NInf | NInf => PInf | NaN => NaN end.

(** Division; a finite value over zero is an infinity of the sign of the
    numerator, zero over zero is NaN. *)
Definition fdiv (x y : float64) : float64 :=
  match x, y with
  | NaN, _ | _, NaN => NaN
  | Fin a, Fin b =>
      if decide (b = 0) then
        match a ?= 0 with Gt => PInf | Lt => NInf | Eq => NaN end
      else Fin (a / b)
  | Fin _, _ => Fin 0
  | _, Fin b => if decide (b < 0) then fneg x else x
  | _, _ => NaN
  end.

Definition isna (x : float64) : bool :=
  match x with NaN => true | _ => false end.

(** ** pandas Series operations used by the program

    A Series is the list of its cells; the index lives in the frame. *)

Abbreviation Series := (list float64).

Definition Qc_of_nat (n : nat) : Qc := Qc_of_Z (Z.of_nat n).

Definition sum_Qc (l : list Qc) : Qc := foldr Qcplus 0 l.

(** The arithmetic mean of a list of numbers. *)
Definition mean (l : list Qc) : Qc := sum_Qc l / Qc_of_nat (length l).

(** [l[start:stop]] *)
Definition slice {A} (start stop : nat) (l : list A) : list A :=
  take (stop - start) (drop start l).

(** Rolling._prep_values: infinities become NaN; a NaN cell is no
    observation. *)
Definition prep_value (x : float64) : option Qc :=
  match x with Fin q => Some q | _ => None end.

(** FixedWindowIndexer: the window of row [i] is [max(0, i+1-window), i+1). *)
Definition window_bounds (window i : nat) : nat * nat :=
  (i + 1 - window, i + 1)%nat.

(** roll_mean's result for one window: the mean of the observations when
    there are at least [min_periods] of them (and at least one). *)
Definition calc_mean (min_periods : nat) (obs : list Qc) : float64 :=
  if bool_decide (min_periods ≤ length obs)%nat && bool_decide (0 < length obs)%nat
  then Fin (mean obs) else NaN.

(** [s.rolling(window=window, min_periods=min_periods).mean()] *)
Definition rolling_mean (window min_periods : nat) (s : Series) : Series :=
  let values := prep_value <$> s in
  (λ i, let '(start, stop) := window_bounds window i in
        calc_mean min_periods (omap id (slice start stop values)))
    <$> seq 0 (length s).

(** [s.ffill()]: a NaN cell takes the last valid value before it. *)
Fixpoint ffill_from (last : float64) (s : Series) : Series :=
  match s with
  | [] => []
  | x :: s' => if isna x then last :: ffill_from last s'
               else x :: ffill_from x s'
  end.
Definition ffill (s : Series) : Series := ffill_from NaN s.

(** [s.shift(periods)] for [periods >= 0]. *)
Definition shift (periods : nat) (s : Series) : Series :=
  take (length s) (replicate periods NaN ++ s).

(** [s.pct_change()], with its defaults [periods=1, fill_method='pad']:
    [data = s.ffill(); data / data.shift(1) - 1]. *)
Definition pct_change (s : Series) : Series :=
  let data := ffill s in
  zip_with (λ d p, fsub (fdiv d p) (Fin 1)) data (shift 1 data).

(** [a - b] on two Series of one frame. *)
Definition series_sub (a b : Series) : Series := zip_with fsub a b.

(** [s.diff()] on an integer Series: a float Series whose first cell is NaN
    ([None]). *)
Definition series_diff (s : list Z) : list (option Z) :=
  zip_with (λ cur prev, (λ p, cur - p)%Z <$> prev) s (None :: (Some <$> s)).

(** [signal == k]: a NaN cell compares false. *)
Definition eq_mask (k : Z) (signal : list (option Z)) : list bool :=
  (λ c, match c with Some d => bool_decide (d = k) | None => false end) <$> signal.

(** [index[mask]]: the labels at the positions where the mask is true. *)
Fixpoint index_mask {A} (index : list A) (mask : list bool) : list A :=
  match index, mask with
  | t :: index', b :: mask' =>
      if b then t :: index_mask index' mask' else index_mask index' mask'
  | _, _ => []
  end.

(** [s.dropna()] and [s.tail(n)] *)
Definition dropna (s : Series) : Series := filter (λ x, isna x = false) s.
Definition tail {A} (n : nat) (l : list A) : list A := drop (length l - n) l.

(** ** DataFrames

    The row index (one timestamp per row, as a day number) and the named
    columns. *)

Record DataFrame := mkDataFrame {
  index : list Z;
  columns : gmap string Series
}.

(** [df[c]]; [None] is the KeyError of a missing column. *)
Definition getitem (df : DataFrame) (c : string) : option Series :=
  columns df !! c.

(** [df[c] = s] *)
Definition setitem (df : DataFrame) (c : string) (s : Series) : DataFrame :=
  mkDataFrame (index df) (<[c := s]> (columns df)).

(** [df.copy()] (deep): on frame values the copy is the same value; the
    object identity of the copy is the subject of [Store] below. *)
Definition copy (df : DataFrame) : DataFrame := df.

(** The timestamps of a PriceSeries are strictly increasing. *)
Definition chronological (index : list Z) : Prop := StronglySorted Z.lt index.

(** [df.empty]: no rows or no columns. *)
Definition empty (df : DataFrame) : bool :=
  bool_decide (length (index df) = 0%nat) || bool_decide (size (columns df) = 0%nat).

(** ** compute_indicators (stock.py, lines 30-35) *)

Definition compute_indicators (df : DataFrame) : option DataFrame :=
  let df := copy df in
  close ← getitem df "Close";
  let df := setitem df "MA_20" (rolling_mean 20 1 close) in
  close ← getitem df "Close";
  let df := setitem df "MA_50" (rolling_mean 50 1 close) in
  close ← getitem df "Close";
  let df := setitem df "Daily_Return" (pct_change close) in
  Some df.

(** ** find_crossovers (stock.py, lines 37-53) *)

(** [lambda x: 1 if x > 0 else (-1 if x < 0 else 0)] *)
Definition sign_of (x : float64) : Z :=
  if fgt x (Fin 0) then 1 else (if flt x (Fin 0) then -1 else 0).

(** The local [sign]: the sign of [ma_short - ma_long], row by row. *)
Definition crossover_sign (ma_short ma_long : Series) : list Z :=
  let diff := series_sub ma_short ma_long in
  sign_of <$> diff.

(** The local [signal = sign.diff()]. *)
Definition crossover_signal (ma_short ma_long : Series) : list (option Z) :=
  series_diff (crossover_sign ma_short ma_long).

Definition find_crossovers (df : DataFrame) : option (list Z * list Z) :=
  ma_short ← getitem df "MA_20";
  ma_long ← getitem df "MA_50";
  let signal := crossover_signal ma_short ma_long in
  let bullish := index_mask (index df) (eq_mask 2 signal) in
  let bearish := index_mask (index df) (eq_mask (-2) signal) in
  Some (bullish, bearish).

(** ** The return statistics of print_summary (stock.py, lines 63-66)

    Rounding a cell to four decimals and the standard deviation of an array
    without NaN are numeric kernels outside exact rational arithmetic; what
    the program decides is which cells reach them. *)

Section Summary.
Variable round4 : float64 → float64.
Variable std_ddof1 : list float64 → float64.

(** [df['Daily_Return'].dropna().tail(5).round(4)] *)
Definition summary_last_returns (df : DataFrame) : option Series :=
  r ← getitem df "Daily_Return";
  Some (round4 <$> tail 5 (dropna r)).

(** [df['Daily_Return'].std()], with its default [skipna=True]: the cells
    that are NaN are masked out before the deviation is taken. *)
Definition summary_return_std (df : DataFrame) : option float64 :=
  r ← getitem df "Daily_Return";
  Some (std_ddof1 (dropna r)).
End Summary.

(** ** download_data and main up to the report (stock.py, lines 21-28,
    99-114) *)

(** What [yf.download] does: it raises an exception (given by its message)
    or returns a frame or [None]. *)
Inductive provider_result :=
  | Raised (e : string)
  | Returned (df : option DataFrame).

Inductive exn :=
  | RuntimeError (msg : string)
  | ValueError (msg : string).

Definition str (e : exn) : string :=
  match e with RuntimeError msg | ValueError msg => msg end.

Inductive stream := Stdout | Stderr.

(** The command line as argparse hands it over (lines 100-106): the ticker,
    the period (1y when not given), the two optional paths and the flag. *)
Record arguments := mkArguments {
  ticker : string;
  period : string;
  save_fig : option string;
  save_csv : option string;
  no_show : bool
}.

(** What [parser.parse_args(argv)] does: it returns the arguments; or, for
    [-h], it prints the help to standard output and exits with status 0; or,
    for a command line it cannot read, it prints the usage and an error to
    standard error and exits with status 2. *)
Inductive parse_result :=
  | Parsed (args : arguments)
  | HelpExit (text : string)
  | UsageExit (text : string).

(** How a run of [main] ends before the report: by an exit (of argparse, or
    the [sys.exit(1)] of line 112) after some lines were written, by an
    exception of compute_indicators that nothing catches, or by handing the
    indicator frame to the reporting and plotting steps. *)
Inductive outcome :=
  | Exited (status : Z) (written : list (stream * string))
  | Uncaught
  | Reported (df : DataFrame).

(** The collaborators of the run: argparse on the command line, the fetch
    of yfinance, and what that fetch itself writes while it runs (yfinance
    reports a failed download on its own). *)
Section Pipeline.
Variable parse_args : list string → parse_result.
Variable yf_download : string → string → provider_result.
Variable yf_output : string → string → list (stream * string).

Definition download_data (ticker period : string) : exn + DataFrame :=
  match yf_download ticker period with
  | Raised e =>
      inl (RuntimeError ("Failed to download data for " +:+ ticker +:+ ": " +:+ e))
  | Returned None =>
      inl (ValueError ("No data found for ticker '" +:+ ticker +:+
                       "' with period='" +:+ period +:+ "'."))
  | Returned (Some df) =>
      if empty df
      then inl (ValueError ("No data found for ticker '" +:+ ticker +:+
                            "' with period='" +:+ period +:+ "'."))
      else inr df
  end.

(** [print] writes to standard output. *)
Definition print (line : string) : stream * string := (Stdout, line).

Definition main (argv : list string) : outcome :=
  match parse_args argv with
  | HelpExit text => Exited 0 [(Stdout, text)]
  | UsageExit text => Exited 2 [(Stderr, text)]
  | Parsed args =>
      match download_data (ticker args) (period args) with
      | inl e =>
          Exited 1 (yf_output (ticker args) (period args)
                    ++ [print ("Error: " +:+ str e)])
      | inr df =>
          match compute_indicators df with
          | Some df => Reported df
          | None => Uncaught
          end
      end
  end.
End Pipeline.

(** ** Frames as objects: the store

    Python variables hold references.  [Store] models the frames as objects
    of a store, so that copying allocates and item assignment updates the
    object assigned to. *)

Module Store.
Definition loc := nat.
Abbreviation store := (list DataFrame).

(** A computation reads and updates the store and may raise. *)
Definition M (A : Type) : Type := store → option (A * store).

Definition ret {A} (a : A) : M A := λ h, Some (a, h).
Definition bind {A B} (m : M A) (k : A → M B) : M B :=
  λ h, match m h with Some (a, h') => k a h' | None => None end.

Declare Scope store_scope.
Delimit Scope store_scope with store.
Notation "x <- m ;; k" := (bind m (λ x, k))
  (at level 100, m at next level, right associativity) : store_scope.
Notation "m ;;; k" := (bind m (λ _, k))
  (at level 100, right associativity) : store_scope.

(** [df.copy()]: a new object with the same rows, columns and values. *)
Definition copy (l : loc) : M loc :=
  λ h, df ← h !! l; Some (length h, h ++ [df]).

(** [df[c]] *)
Definition getitem (l : loc) (c : string) : M Series :=
  λ h, df ← h !! l; s ← columns df !! c; Some (s, h).

(** [df[c] = s]: updates the object [l] in place (the [setitem] on the
    right is the one on frame values). *)
Definition setitem (l : loc) (c : string) (s : Series) : M unit :=
  λ h, df ← h !! l; Some (tt, <[l := setitem df c s]> h).

Definition compute_indicators (df : loc) : M loc :=
  (df <- copy df ;;
   close <- getitem df "Close" ;;
   setitem df "MA_20" (rolling_mean 20 1 close) ;;;
   close <- getitem df "Close" ;;
   setitem df "MA_50" (rolling_mean 50 1 close) ;;;
   close <- getitem df "Close" ;;
   setitem df "Daily_Return" (pct_change close) ;;;
   ret df)%store.
End Store.

(** ** The numeric steps in any cell arithmetic

    [Cells] holds compute_indicators, find_crossovers and the pandas
    operations they call once more, with the arithmetic of the cells as a
    parameter, and with the rolling mean as pandas 2 computes it (roll_mean
    of [pandas/_libs/window/aggregations.pyx]): it keeps one running sum
    for the window, adds the value that enters and removes the value that
    leaves (both with Kahan's compensation), and reads the mean off that
    sum in [calc_mean].  The instances are [exact] (the rational cells
    above) and [binary64] (IEEE 754 double precision, round to nearest
    even), the arithmetic the program runs in. *)

Module Cells.

(** What the numeric steps use of a float64 cell, and the three facts about
    NaN that pct_change relies on. *)
Record Arithmetic := mkArithmetic {
  cell : Type;
  nan : cell;
  zero : cell;
  one : cell;
  of_nat : nat → cell;
  add : cell → cell → cell;
  sub : cell → cell → cell;
  div : cell → cell → cell;
  neg : cell → cell;
  eqb : cell → cell → bool;
  ltb : cell → cell → bool;
  signbit : cell → bool;
  isinf : cell → bool;
  nan_unordered : eqb nan nan = false;
  div_nan_r : ∀ x, div x nan = nan;
  sub_nan_l : ∀ y, sub nan y = nan
}.

Section Program.
Context (R : Arithmetic).

(** [val != val]: only a NaN differs from itself. *)
Definition isna (x : cell R) : bool := negb (eqb R x x).

(** The variables roll_mean carries from row to row. *)
Record mean_state := mkState {
  nobs : nat;
  sum_x : cell R;
  neg_ct : nat;
  compensation_add : cell R;
  compensation_remove : cell R;
  num_consecutive_same_value : nat;
  prev_value : cell R
}.

(** add_mean: a value enters the window (a NaN is no observation). *)
Definition add_mean (st : mean_state) (val : cell R) : mean_state :=
  if eqb R val val then
    let y := sub R val (compensation_add st) in
    let t := add R (sum_x st) y in
    {| nobs := S (nobs st);
       sum_x := t;
       neg_ct := if signbit R val then S (neg_ct st) else neg_ct st;
       compensation_add := sub R (sub R t (sum_x st)) y;
       compensation_remove := compensation_remove st;
       num_consecutive_same_value :=
         if eqb R val (prev_value st)
         then S (num_consecutive_same_value st) else 1;
       prev_value := val |}
  else st.

(** remove_mean: a value leaves the window. *)
Definition remove_mean (st : mean_state) (val : cell R) : mean_state :=
  if eqb R val val then
    let y := sub R (neg R val) (compensation_remove st) in
    let t := add R (sum_x st) y in
    {| nobs := pred (nobs st);
       sum_x := t;
       neg_ct := if signbit R val then pred (neg_ct st) else neg_ct st;
       compensation_add := compensation_add st;
       compensation_remove := sub R (sub R t (sum_x st)) y;
       num_consecutive_same_value := num_consecutive_same_value st;
       prev_value := prev_value st |}
  else st.

(** calc_mean: the running sum over the number of observations; a window
    of equal values gives that value, and a mean on the wrong side of zero
    for its window is set to zero. *)
Definition calc_mean (minp : nat) (st : mean_state) : cell R :=
  if bool_decide (minp ≤ nobs st)%nat && bool_decide (0 < nobs st)%nat then
    let result := div R (sum_x st) (of_nat R (nobs st)) in
    if bool_decide (nobs st ≤ num_consecutive_same_value st)%nat
    then prev_value st
    else if bool_decide (neg_ct st = 0%nat) && ltb R result (zero R)
    then zero R
    else if bool_decide (neg_ct st = nobs st) && ltb R (zero R) result
    then zero R
    else result
  else nan R.

(** The state a window is set up from. *)
Definition fresh (first : cell R) : mean_state :=
  mkState 0 (zero R) 0 (zero R) (zero R) 0 first.

(** One turn of roll_mean's loop: the state for row [i] from the state of
    the row before.  The first row, and a window that starts where the one
    before ended, is set up anew; else the values that left are removed
    and the values that entered are added. *)
Definition row_state (window : nat) (values : list (cell R)) (i : nat)
    (st : mean_state) : mean_state :=
  let '(s, e) := window_bounds window i in
  let '(s0, e0) := window_bounds window (i - 1) in
  if bool_decide (i = 0%nat) || bool_decide (e0 ≤ s)%nat
  then foldl add_mean (fresh (nth s values (nan R))) (slice s e values)
  else foldl add_mean (foldl remove_mean st (slice s0 s values))
             (slice e0 e values).

(** The loop from row [i] on, for [n] rows. *)
Fixpoint roll_rows (window minp : nat) (values : list (cell R))
    (st : mean_state) (i n : nat) : list (cell R) :=
  match n with
  | O => []
  | S n' =>
      let st' := row_state window values i st in
      calc_mean minp st' :: roll_rows window minp values st' (S i) n'
  end.

Definition roll_mean (values : list (cell R)) (window minp : nat)
  : list (cell R) :=
  roll_rows window minp values (fresh (nan R)) 0 (length values).

(** The state of the loop [k] rows after it entered row [i] with [st], and
    the state after row [i] of the whole run. *)
Fixpoint rows_state (window : nat) (values : list (cell R))
    (st : mean_state) (i k : nat) : mean_state :=
  match k with
  | O => row_state window values i st
  | S k' => rows_state window values (row_state window values i st) (S i) k'
  end.

Definition state_at (window : nat) (values : list (cell R)) (i : nat)
  : mean_state :=
  rows_state window values (fresh (nan R)) 0 i.

(** Rolling._prep_values: infinities become NaN. *)
Definition prep_values (s : list (cell R)) : list (cell R) :=
  (λ x, if isinf R x then nan R else x) <$> s.

(** [s.rolling(window=window, min_periods=min_periods).mean()] *)
Definition rolling_mean (window min_periods : nat) (s : list (cell R))
  : list (cell R) :=
  roll_mean (prep_values s) window min_periods.

Fixpoint ffill_from (last : cell R) (s : list (cell R)) : list (cell R) :=
  match s with
  | [] => []
  | x :: s' => if isna x then last :: ffill_from last s'
               else x :: ffill_from x s'
  end.
Definition ffill (s : list (cell R)) : list (cell R) := ffill_from (nan R) s.

Definition shift (periods : nat) (s : list (cell R)) : list (cell R) :=
  take (length s) (replicate periods (nan R) ++ s).

(** [s.pct_change()]: [data = s.ffill(); data / data.shift(1) - 1].  The
    fill is the default of pandas up to 2.x; it changes nothing on a column
    without NaN. *)
Definition pct_change (s : list (cell R)) : list (cell R) :=
  let data := ffill s in
  zip_with (λ d p, sub R (div R d p) (one R)) data (shift 1 data).

Definition dropna (s : list (cell R)) : list (cell R) :=
  filter (λ x, isna x = false) s.

Record DataFrame := mkDataFrame {
  index : list Z;
  columns : gmap string (list (cell R))
}.

Definition getitem (df : DataFrame) (c : string) : option (list (cell R)) :=
  columns df !! c.

Definition setitem (df : DataFrame) (c : string) (s : list (cell R))
  : DataFrame :=
  mkDataFrame (index df) (<[c := s]> (columns df)).

Definition copy (df : DataFrame) : DataFrame := df.

(** compute_indicators (stock.py, lines 30-35). *)
Definition compute_indicators (df : DataFrame) : option DataFrame :=
  let df := copy df in
  close ← getitem df "Close";
  let df := setitem df "MA_20" (rolling_mean 20 1 close) in
  close ← getitem df "Close";
  let df := setitem df "MA_50" (rolling_mean 50 1 close) in
  close ← getitem df "Close";
  let df := setitem df "Daily_Return" (pct_change close) in
  Some df.

(** The two return statistics of print_summary (lines 64 and 66); the
    rounding and the deviation are kernels given from outside. *)
Definition summary_last_returns (round4 : cell R → cell R) (df : DataFrame)
  : option (list (cell R)) :=
  r ← getitem df "Daily_Return";
  Some (round4 <$> tail 5 (dropna r)).

Definition summary_return_std (std_ddof1 : list (cell R) → cell R)
    (df : DataFrame) : option (cell R) :=
  r ← getitem df "Daily_Return";
  Some (std_ddof1 (dropna r)).

(** find_crossovers (stock.py, lines 37-53): the sign of the difference
    of the two averages, its row-to-row difference, and the labels of the
    rows where that is 2 or -2. *)
Definition sign_of (x : cell R) : Z :=
  if ltb R (zero R) x then 1 else (if ltb R x (zero R) then -1 else 0).

Definition crossover_sign (ma_short ma_long : list (cell R)) : list Z :=
  let diff := zip_with (sub R) ma_short ma_long in
  sign_of <$> diff.

Definition crossover_signal (ma_short ma_long : list (cell R))
  : list (option Z) :=
  series_diff (crossover_sign ma_short ma_long).

Definition find_crossovers (df : DataFrame) : option (list Z * list Z) :=
  ma_short ← getitem df "MA_20";
  ma_long ← getitem df "MA_50";
  let signal := crossover_signal ma_short ma_long in
  let bullish := index_mask (index df) (eq_mask 2 signal) in
  let bearish := index_mask (index df) (eq_mask (-2) signal) in
  Some (bullish, bearish).

(** A PriceSeries: timestamps and closes, next to any other columns. *)
Definition price_frame (rows : list (Z * cell R))
    (others : gmap string (list (cell R))) : DataFrame :=
  mkDataFrame (rows.*1) (<["Close" := rows.*2]> others).

(** A close that is a number: not a NaN and not an infinity. *)
Definition finite (x : cell R) : Prop := eqb R x x = true ∧ isinf R x = false.
End Program.
End Cells.

(** Exact rational arithmetic on [float64]. *)
Definition exact : Cells.Arithmetic := {|
  Cells.cell := float64;
  Cells.nan := NaN;
  Cells.zero := Fin 0;
  Cells.one := Fin 1;
  Cells.of_nat := λ n, Fin (Qc_of_nat n);
  Cells.add := fadd;
  Cells.sub := fsub;
  Cells.div := fdiv;
  Cells.neg := fneg;
  Cells.eqb := feq;
  Cells.ltb := flt;
  Cells.signbit := λ x, flt x (Fin 0);
  Cells.isinf := λ x, match x with PInf | NInf => true | _ => false end;
  Cells.nan_unordered := eq_refl;
  Cells.div_nan_r := λ x, match x with Fin _ | PInf | NInf | NaN => eq_refl end;
  Cells.sub_nan_l := λ y, eq_refl
|}.

(** IEEE 754 binary64: a sign, a mantissa of up to 53 bits and an exponent,
    the two zeros, the two infinities and NaN, with the operations of the
    standard rounded to nearest, ties to even. *)
Abbreviation b64 := SpecFloat.spec_float.

(** The float64 nearest to an integer. *)
Definition b64_of_Z (z : Z) : b64 := SpecFloat.binary_normalize 53 1024 z 0 false.

Definition b64_signbit (x : b64) : bool :=
  match x with
  | SpecFloat.S754_zero s | SpecFloat.S754_infinity s
  | SpecFloat.S754_finite s _ _ => s
  | SpecFloat.S754_nan => false
  end.

Definition b64_isinf (x : b64) : bool :=
  match x with SpecFloat.S754_infinity _ => true | _ => false end.

Definition binary64 : Cells.Arithmetic := {|
  Cells.cell := b64;
  Cells.nan := SpecFloat.S754_nan;
  Cells.zero := SpecFloat.S754_zero false;
  Cells.one := b64_of_Z 1;
  Cells.of_nat := λ n, b64_of_Z (Z.of_nat n);
  Cells.add := SpecFloat.SFadd 53 1024;
  Cells.sub := SpecFloat.SFsub 53 1024;
  Cells.div := SpecFloat.SFdiv 53 1024;
  Cells.neg := SpecFloat.SFopp;
  Cells.eqb := SpecFloat.SFeqb;
  Cells.ltb := SpecFloat.SFltb;
  Cells.signbit := b64_signbit;
  Cells.isinf := b64_isinf;
  Cells.nan_unordered := eq_refl;
  Cells.div_nan_r := λ x, match x with
                          | SpecFloat.S754_zero _ | SpecFloat.S754_infinity _
                          | SpecFloat.S754_nan
                          | SpecFloat.S754_finite _ _ _ => eq_refl
                          end;
  Cells.sub_nan_l := λ y, eq_refl
|}.

(** The float64 a decimal literal [n/d] denotes (the quotient of two
    integers, rounded once), as in [0.1 = b64_dec 1 10]. *)
Definition b64_dec (n d : Z) : b64 :=
  SpecFloat.SFdiv 53 1024 (b64_of_Z n) (b64_of_Z d).


(** The number of negative values of a window. *)
Definition negatives (l : list Qc) : nat := length (filter (λ q, q < 0) l).

(** What roll_mean's state is after row [i] when it runs in exact
    arithmetic on the closes [close]: the size, the sum and the number of
    negative values of the window of that row, no compensation, the close of
    the row, and a count of equal closes that end at the row. *)
Definition exact_state (close : list Qc) (w i : nat)
    (st : Cells.mean_state exact) : Prop :=
  let window := slice (i + 1 - w) (i + 1) close in
  Cells.nobs exact st = length window
  ∧ Cells.sum_x exact st = Fin (sum_Qc window)
  ∧ Cells.compensation_add exact st = Fin 0
  ∧ Cells.compensation_remove exact st = Fin 0
  ∧ Cells.neg_ct exact st = negatives window
  ∧ ∃ c, close !! i = Some c
         ∧ Cells.prev_value exact st = Fin c
         ∧ (1 ≤ Cells.num_consecutive_same_value exact st)%nat
         ∧ ∀ j, (j < Cells.num_consecutive_same_value exact st)%nat →
                (j ≤ i)%nat → close !! (i - j)%nat = Some c.

(** ** Inputs and claim-side definitions *)

(** A PriceSeries as the provider hands it over: one row per record, with
    its timestamp and its close (every record has a close, a finite number),
    next to any other columns. *)
Definition price_frame (rows : list (Z * Qc)) (others : gmap string Series)
  : DataFrame :=
  mkDataFrame (rows.*1) (<["Close" := Fin <$> rows.*2]> others).

(** The input frame with the three indicator columns set, one after the
    other ([compute_indicators_price] shows it is what compute_indicators
    returns for a PriceSeries). *)
Definition indicator_frame (rows : list (Z * Qc)) (others : gmap string Series)
  : DataFrame :=
  let close := Fin <$> rows.*2 in
  setitem (setitem (setitem (price_frame rows others)
                      "MA_20" (rolling_mean 20 1 close))
             "MA_50" (rolling_mean 50 1 close))
    "Daily_Return" (pct_change close).

(** The moving average in the words of the specification: below the
    window size the mean of [close[0..i]], from the window size on the mean
    of the trailing [w] values [close[i-(w-1)..i]]. *)
Definition spec_moving_average (w : nat) (close : list Qc) (i : nat) : Qc :=
  if bool_decide (i < w)%nat then mean (slice 0 (i + 1) close)
  else mean (slice (i - (w - 1)) (i + 1) close).


(** The sign in the words of the specification: [+1] if the difference is
    positive, [-1] if it is negative, [0] if the two averages are exactly
    equal; nothing is said of a difference that is none of these (a NaN). *)
Definition spec_sign (short long : float64) : option Z :=
  if fgt (fsub short long) (Fin 0) then Some 1%Z
  else if flt (fsub short long) (Fin 0) then Some (-1)%Z
  else if feq short long then Some 0%Z
  else None.

Definition spec_sign_at (ma_short ma_long : Series) (i : nat) : option Z :=
  x ← ma_short !! i; y ← ma_long !! i; spec_sign x y.

(** [delta[i] = sign[i] - sign[i-1]], for [i >= 1]. *)
Definition spec_delta (ma_short ma_long : Series) (i : nat) : option Z :=
  if bool_decide (1 ≤ i)%nat then
    a ← spec_sign_at ma_short ma_long i;
    b ← spec_sign_at ma_short ma_long (i - 1);
    Some (a - b)%Z
  else None.

(** The timestamps of the rows whose delta is [k], in row order. *)
Definition spec_crossovers (k : Z) (index : list Z) (ma_short ma_long : Series)
  : list Z :=
  omap (λ i, if bool_decide (spec_delta ma_short ma_long i = Some k)
             then index !! i else None)
       (seq 0 (length index)).

(** ** Example inputs *)

Definition Fz (z : Z) : float64 := Fin (Qc_of_Z z).

(** A frame that holds the two moving averages only. *)
Definition ma_frame (index : list Z) (ma_short ma_long : Series) : DataFrame :=
  mkDataFrame index (<["MA_20" := ma_short]> (<["MA_50" := ma_long]> ∅)).

(** Differences [-1, -1, 1, 1, -1]. *)
Definition short_five : Series := Fz <$> [0; 0; 2; 2; 0]%Z.
Definition long_five : Series := Fz <$> [1; 1; 1; 1; 1]%Z.
Definition frame_five : DataFrame :=
  ma_frame [10; 11; 12; 13; 14]%Z short_five long_five.

(** Differences [-1, 0, 1]: the averages meet before they cross. *)
Definition short_tie : Series := Fz <$> [0; 1; 2]%Z.
Definition long_tie : Series := Fz <$> [1; 1; 1]%Z.
Definition frame_tie : DataFrame := ma_frame [10; 11; 12]%Z short_tie long_tie.

(** A provider that finds nothing: a frame without rows or columns. *)
Definition provider_empty (ticker period : string) : provider_result :=
  Returned (Some (mkDataFrame [] ∅)).

(** A provider whose fetch raises. *)
Definition provider_raising (ticker period : string) : provider_result :=
  Raised "connection refused".

(** A fetch that writes nothing, and one that reports its failure on
    standard error as yfinance does. *)
Definition silent (ticker period : string) : list (stream * string) := [].
Definition noisy (ticker period : string) : list (stream * string) :=
  [(Stderr, "1 Failed download:")].

(** The command line [XYZ --no-show] as argparse reads it, and a parser
    that reads every command line so. *)
Definition args_xyz : arguments := mkArguments "XYZ" "1y" None None true.
Definition parse_xyz (argv : list string) : parse_result := Parsed args_xyz.

(** [pre + needle + post]: the text holds the needle. *)
Definition contains (needle text : string) : Prop :=
  ∃ pre post, text = pre +:+ needle +:+ post.

(** A one-row PriceSeries and a store that holds it. *)
Definition frame_one_row : DataFrame := price_frame [(1%Z, Qc_of_Z 100)] ∅.
Definition store_one : list DataFrame := [frame_one_row].

(** Sixty rows with the closes [100 + i]. *)
Definition rows_increasing : list (Z * Qc) :=
  (λ i, (Z.of_nat i, Qc_of_Z (100 + Z.of_nat i))) <$> seq 0 60.

(** Twenty-five rows whose close is 100 except for 110 at row 1. *)
Definition rows_bump : list (Z * Qc) :=
  (λ i, (Z.of_nat i, Qc_of_Z (if (i =? 1)%nat then 110 else 100))) <$> seq 0 25.


(** In binary64: the sixty closes [100 + i]; twenty-five closes of 100 with
    110 at row 1; and thirty closes that alternate between 100.1 and
    100.2.  The last also as rationals. *)
Definition prices_increasing : list (Z * b64) :=
  (λ i, (Z.of_nat i, b64_of_Z (100 + Z.of_nat i))) <$> seq 0 60.
Definition prices_bump : list (Z * b64) :=
  (λ i, (Z.of_nat i, b64_of_Z (if (i =? 1)%nat then 110 else 100)))
    <$> seq 0 25.
Definition prices_alternating : list (Z * b64) :=
  (λ i, (Z.of_nat i, if Nat.even i then b64_dec 1001 10 else b64_dec 1002 10))
    <$> seq 0 30.
Definition rows_alternating : list (Z * Qc) :=
  (λ i, (Z.of_nat i,
         if Nat.even i then Qc_of_Z 1001 / Qc_of_Z 10
         else Qc_of_Z 1002 / Qc_of_Z 10)) <$> seq 0 30.

(** Both lists have the same length and [p] holds of every pair of cells at
    the same position. *)
Fixpoint all2 {A B} (p : A → B → bool) (l : list A) (k : list B) : bool :=
  match l, k with
  | [], [] => true
  | a :: l', b :: k' => p a b && all2 p l' k'
  | _, _ => false
  end.

(** ** The reporting steps: print_summary, plot_data and the end of main
    (stock.py, lines 55-66, 68-97, 114-121)

    These steps print, write files and draw.  A run of them is modelled by
    the effects it has, in order, and by whether it got to its end or was
    stopped by an exception.  A printed line that formats numbers is given by
    the numbers it formats; the matplotlib calls that take no data of the
    frame or of the arguments and cannot fail on it (the new figure, axis
    labels, legend, date formatter, layout) are left out. *)

Inductive effect :=
  | UseStyle (name : string)
  | SummaryTitle (ticker : string) (first final : Z)
  | LastClose (v : float64)
  | LastShortMA (v : float64)
  | LastLongMA (v : float64)
  | PrintLine (line : string)
  | CloseStatistics (close : Series)
  | LastReturns (r : Series)
  | AnnualizedVolatility (deviation : float64)
  | ToCsv (path : string) (df : DataFrame)
  | PlotLine (label : string) (x : list Z) (y : Series)
  | Scatter (label : string) (x : list Z) (y : Series)
  | SetTitle (title : string)
  | Savefig (path : string)
  | Show
  | CloseFigure.

(** The effects of a run and whether it completed ([false]: it raised). *)
Abbreviation trace := (list effect * bool)%type.

Definition finished : trace := ([], true).
Definition raised : trace := ([], false).

(** One effect, then the rest of the run. *)
Definition emit (e : effect) (k : trace) : trace := (e :: k.1, k.2).

(** Evaluate an expression that may raise, then the rest of the run. *)
Definition need {A} (o : option A) (k : A → trace) : trace :=
  match o with Some a => k a | None => raised end.

(** One statement after another. *)
Definition and_then (a b : trace) : trace :=
  if a.2 then (a.1 ++ b.1, b.2) else a.

Definition newline : string := String (Ascii.ascii_of_nat 10) EmptyString.

(** [df.iloc[-1]]: the last row, given by its cell in each column; the
    IndexError of a frame without rows is [None]. *)
Definition iloc_last (df : DataFrame) : option (string → option float64) :=
  if bool_decide (length (index df) = 0%nat) then None
  else Some (λ c, s ← getitem df c; last s).

(** [df.loc[labels, c]]: for each label in turn the cells of column [c] at
    the rows that carry it; the KeyError of a label no row carries, or of a
    missing column, is [None]. *)
Definition rows_with (index : list Z) (s : Series) (t : Z) : Series :=
  (filter (λ p, p.1 = t) (zip index s)).*2.

Definition df_loc (df : DataFrame) (labels : list Z) (c : string)
  : option Series :=
  s ← getitem df c;
  cells ← mapM (λ t, match rows_with (index df) s t with
                     | [] => None
                     | r => Some r
                     end) labels;
  Some (concat cells).

(** The truth value of an optional path argument: [None] and the empty
    string are false. *)
Definition truthy (o : option string) : option string :=
  match o with
  | Some path => if bool_decide (path = "") then None else Some path
  | None => None
  end.

(** [ax.scatter(x, y, ...)]: matplotlib raises when the sizes differ. *)
Definition scatter (label : string) (x : list Z) (y : Series) : trace :=
  if bool_decide (length x = length y) then emit (Scatter label x y) finished
  else raised.

(** Besides the two numeric kernels, the report depends on the styles the
    installed matplotlib knows: [plt.style.use] raises an OSError for a name
    that is not among them (matplotlib 3.8 and later have no
    ['seaborn-darkgrid']). *)
Section Report.
Variable round4 : float64 → float64.
Variable std_ddof1 : list float64 → float64.
Variable style_available : string → bool.

(** [plt.style.use(name)], then the rest of the run. *)
Definition style_use (name : string) (k : trace) : trace :=
  if style_available name then emit (UseStyle name) k else raised.

Definition print_summary (df : DataFrame) (ticker : string) : trace :=
  need (iloc_last df) (λ last_row,
  need (head (index df)) (λ first,
  need (last (index df)) (λ final,
  emit (SummaryTitle ticker first final) (
  need (last_row "Close") (λ v, emit (LastClose v) (
  need (last_row "MA_20") (λ v, emit (LastShortMA v) (
  need (last_row "MA_50") (λ v, emit (LastLongMA v) (
  emit (PrintLine (newline +:+ "Basic statistics for Close:")) (
  need (getitem df "Close") (λ close, emit (CloseStatistics close) (
  emit (PrintLine (newline +:+ "Daily return (last 5):")) (
  need (summary_last_returns round4 df) (λ r, emit (LastReturns r) (
  need (summary_return_std std_ddof1 df) (λ v, emit (AnnualizedVolatility v)
  finished))))))))))))))))).

(** The markers of one kind: none without a crossover, else the last three
    crossovers over the closes of their rows. *)
Definition plot_markers (df : DataFrame) (label : string) (crosses : list Z)
  : trace :=
  match crosses with
  | [] => finished
  | _ => need (df_loc df (tail 3 crosses) "Close")
              (λ y, scatter label (tail 3 crosses) y)
  end.

Definition plot_data (df : DataFrame) (ticker : string)
    (save_fig : option string) (show : bool) : trace :=
  style_use "seaborn-darkgrid" (
  need (getitem df "Close") (λ close,
  emit (PlotLine "Close Price" (index df) close) (
  need (getitem df "MA_20") (λ ma_short,
  emit (PlotLine "20-day MA" (index df) ma_short) (
  need (getitem df "MA_50") (λ ma_long,
  emit (PlotLine "50-day MA" (index df) ma_long) (
  need (find_crossovers df) (λ '(bullish, bearish),
  and_then (plot_markers df "Bullish Cross" bullish) (
  and_then (plot_markers df "Bearish Cross" bearish) (
  emit (SetTitle (ticker +:+ " — Close Price with 20/50-day MA")) (
  and_then (match truthy save_fig with
            | Some path =>
                emit (Savefig path)
                  (emit (PrintLine ("Saved figure to " +:+ path)) finished)
            | None => finished
            end)
           (if show then emit Show finished
            else emit CloseFigure finished)))))))))))).

(** The end of main, from the indicator frame on (lines 115-121). *)
Definition report (df : DataFrame) (ticker : string)
    (save_csv save_fig : option string) (no_show : bool) : trace :=
  and_then (print_summary df ticker) (
  and_then (match truthy save_csv with
            | Some path =>
                emit (ToCsv path df)
                  (emit (PrintLine ("Saved data to " +:+ path)) finished)
            | None => finished
            end)
           (plot_data df ticker save_fig (negb no_show))).
End Report.

(** Every column of a frame has one cell per row. *)
Definition aligned (df : DataFrame) : Prop :=
  ∀ c s, getitem df c = Some s → length s = length (index df).


(** Three rows whose closes are 100, 110, 99. *)
Definition rows_three : list (Z * Qc) :=
  [(1%Z, Qc_of_Z 100); (2%Z, Qc_of_Z 110); (3%Z, Qc_of_Z 99)].

(** What plot_data draws for the crossovers of one kind: nothing when there
    is none, else one scatter of the last crossovers, at most three, each
    over the close of a row that carries its timestamp. *)
Definition marks (df : DataFrame) (close : Series) (label : string)
    (crosses : list Z) (drawn : list effect) : Prop :=
  match crosses with
  | [] => drawn = []
  | _ =>
      ∃ y, drawn = [Scatter label (tail 3 crosses) y]
           ∧ (1 ≤ length (tail 3 crosses) ≤ 3)%nat
           ∧ tail 3 crosses `suffix_of` crosses
           ∧ Forall2 (λ t c, ∃ i, index df !! i = Some t ∧ close !! i = Some c)
                     (tail 3 crosses) y
  end.

(** The effects of a request to save under an optional path. *)
Definition saved (what : string → list effect) (path : option string)
  : list effect :=
  match truthy path with Some p => what p | None => [] end.

(** [frame_five] with a Close column (the closes are the short average). *)
Definition frame_five_priced : DataFrame :=
  setitem frame_five "Close" short_five.

(** A provider that returns the PriceSeries of [rows_bump]. *)
Definition provider_bump (ticker period : string) : provider_result :=
  Returned (Some (price_frame rows_bump ∅)).

(** * Properties *)

(** ** float64 cells *)

Lemma sign_of_range x : sign_of x = 1%Z ∨ sign_of x = (-1)%Z ∨ sign_of x = 0%Z.
Proof. unfold sign_of. destruct (fgt x (Fin 0)), (flt x (Fin 0)); auto. Qed.

Lemma spec_sign_Some x y s : spec_sign x y = Some s → sign_of (fsub x y) = s.
Proof.
  unfold spec_sign, sign_of.
  destruct (fgt _ _); [congruence|].
  destruct (flt _ _); [congruence|].
  destruct (feq _ _); congruence.
Qed.

Lemma spec_sign_None x y : spec_sign x y = None → sign_of (fsub x y) = 0%Z.
Proof.
  unfold spec_sign, sign_of.
  destruct (fgt _ _); [congruence|].
  destruct (flt _ _); [congruence|]. done.
Qed.

Lemma Qc_compare_refl (a : Qc) : (a ?= a) = Eq.
Proof. by apply Qceq_alt. Qed.

Lemma fsub_diag_sign (a : Qc) : sign_of (fsub (Fin a) (Fin a)) = 0%Z.
Proof.
  unfold sign_of, fgt, flt; simpl.
  replace (a - a) with 0 by ring. by rewrite Qc_compare_refl.
Qed.

(** [a/b - 1] and [(a - b)/b] are the same cell, also over a zero [b]. *)
Lemma pct_formula (a b : Qc) :
  fsub (fdiv (Fin a) (Fin b)) (Fin 1) = fdiv (Fin (a - b)) (Fin b).
Proof.
  unfold fdiv. destruct (decide (b = 0)) as [->|Hb].
  - replace (a - 0) with a by ring. by destruct (a ?= 0).
  - simpl. f_equal. field. done.
Qed.

(** ** Series *)

Lemma crossover_sign_lookup ms ml i :
  crossover_sign ms ml !! i =
    x ← ms !! i; y ← ml !! i; Some (sign_of (fsub x y)).
Proof.
  unfold crossover_sign, series_sub. rewrite list_lookup_fmap, lookup_zip_with.
  by destruct (ms !! i), (ml !! i).
Qed.

Lemma series_diff_lookup_O s : series_diff s !! 0%nat = (λ _, None) <$> s !! 0%nat.
Proof. by destruct s. Qed.

Lemma series_diff_lookup_S s j :
  series_diff s !! S j =
    cur ← s !! S j; prev ← s !! j; Some (Some (cur - prev)%Z).
Proof.
  unfold series_diff. rewrite lookup_zip_with. simpl.
  rewrite list_lookup_fmap.
  destruct (s !! S j) as [cur|]; simpl; [|done].
  by destruct (s !! j).
Qed.

Lemma series_diff_length s : length (series_diff s) = length s.
Proof.
  unfold series_diff. rewrite length_zip_with. simpl.
  rewrite length_fmap. lia.
Qed.

Lemma crossover_signal_length ms ml :
  length (crossover_signal ms ml) = (length ms `min` length ml)%nat.
Proof.
  unfold crossover_signal, crossover_sign, series_sub.
  by rewrite series_diff_length, length_fmap, length_zip_with.
Qed.

Lemma eq_mask_lookup k signal i :
  eq_mask k signal !! i = Some true ↔ signal !! i = Some (Some k).
Proof.
  unfold eq_mask. rewrite list_lookup_fmap.
  destruct (signal !! i) as [[d|]|]; simpl; [|split; congruence..].
  case_bool_decide; split; congruence.
Qed.

(** The code's mask and the claim's delta agree at every row: a row is
    marked exactly when the delta of the claim is defined and equals [k]. *)
Lemma mask_spec_delta k ms ml i :
  (k = 2 ∨ k = -2)%Z →
  eq_mask k (crossover_signal ms ml) !! i = Some true ↔
  spec_delta ms ml i = Some k.
Proof.
  intros Hk. rewrite eq_mask_lookup. unfold crossover_signal, spec_delta.
  destruct i as [|j].
  - rewrite series_diff_lookup_O. rewrite bool_decide_eq_false_2 by lia.
    destruct (crossover_sign ms ml !! 0%nat); simpl; split; congruence.
  - rewrite series_diff_lookup_S, !crossover_sign_lookup.
    rewrite bool_decide_eq_true_2 by lia.
    replace (S j - 1)%nat with j by lia. unfold spec_sign_at.
    destruct (ms !! S j) as [x|], (ml !! S j) as [y|]; simpl;
      try (split; congruence).
    destruct (ms !! j) as [x'|], (ml !! j) as [y'|]; simpl;
      try (split; congruence).
    + pose proof (sign_of_range (fsub x y)) as Hr.
      pose proof (sign_of_range (fsub x' y')) as Hr'.
      destruct (spec_sign x y) as [a|] eqn:Ea;
        [apply spec_sign_Some in Ea|apply spec_sign_None in Ea];
        (destruct (spec_sign x' y') as [b|] eqn:Eb;
          [apply spec_sign_Some in Eb|apply spec_sign_None in Eb]);
        simpl; rewrite ?Ea, ?Eb in *; subst;
        split; intros H; try congruence;
        injection H as H; exfalso; lia.
    + destruct (spec_sign x y); simpl; split; congruence.
    + destruct (spec_sign x y); simpl; split; congruence.
    + destruct (spec_sign x y); simpl; split; congruence.
Qed.

(** Boolean indexing, row by row. *)
Lemma index_mask_seq {A} (idx : list A) mask (P : nat → bool)
    (look : nat → option A) j :
  (∀ i, (i < length idx)%nat →
        mask !! i = Some (P (j + i)%nat) ∧ look (j + i)%nat = idx !! i) →
  index_mask idx mask =
    omap (λ i, if P i then look i else None) (seq j (length idx)).
Proof.
  revert mask j. induction idx as [|t idx IH]; intros mask j H; [done|].
  destruct (H 0%nat) as [Hm Hl]; [simpl; lia|].
  rewrite Nat.add_0_r in Hm, Hl.
  destruct mask as [|b mask]; [done|]. simpl in Hm, Hl.
  injection Hm as ->. cbn [length seq index_mask].
  change (omap ?f (?a :: ?l)) with
    (match f a with Some y => y :: omap f l | None => omap f l end).
  rewrite <- (IH mask (S j)).
  - destruct (P j); by rewrite ?Hl.
  - intros i Hi. destruct (H (S i)) as [Hm' Hl']; [simpl; lia|].
    replace (j + S i)%nat with (S j + i)%nat in Hm', Hl' by lia. done.
Qed.

Lemma index_mask_sublist {A} (idx : list A) mask :
  index_mask idx mask `sublist_of` idx.
Proof.
  revert mask. induction idx as [|t idx IH]; intros [|[] mask]; simpl;
    try constructor; try apply sublist_nil_l; apply IH.
Qed.

Lemma index_mask_none {A} (idx : list A) mask :
  (∀ i, mask !! i ≠ Some true) → index_mask idx mask = [].
Proof.
  revert mask. induction idx as [|t idx IH]; intros [|b mask] H; try done.
  destruct b; [by destruct (H 0%nat)|].
  simpl. apply IH. intros i. apply (H (S i)).
Qed.

Lemma index_mask_disjoint {A} (idx : list A) m1 m2 :
  NoDup idx →
  (∀ i, m1 !! i = Some true → m2 !! i = Some true → False) →
  ∀ t, t ∈ index_mask idx m1 → t ∈ index_mask idx m2 → False.
Proof.
  revert m1 m2. induction idx as [|t0 idx IH]; intros m1 m2 Hnd H t.
  { simpl. by intros ?%elem_of_nil. }
  apply NoDup_cons in Hnd as [Hnotin Hnd].
  destruct m1 as [|b1 m1]; [by intros ?%elem_of_nil|].
  destruct m2 as [|b2 m2]; [by intros _ ?%elem_of_nil|].
  assert (Hrest : ∀ i, m1 !! i = Some true → m2 !! i = Some true → False)
    by (intros i; apply (H (S i))).
  assert (Hin : ∀ m, t0 ∈ index_mask idx m → False).
  { intros m Hm. apply Hnotin.
    eapply elem_of_sublist; [done|apply index_mask_sublist]. }
  destruct b1, b2; simpl.
  - by destruct (H 0%nat).
  - intros [->|H1]%elem_of_cons H2; [by eapply Hin|by eapply IH].
  - intros H1 [->|H2]%elem_of_cons; [by eapply Hin|by eapply IH].
  - by eapply IH.
Qed.

Lemma sublist_strictly_sorted (l1 l2 : list Z) :
  l1 `sublist_of` l2 → chronological l2 → chronological l1.
Proof.
  unfold chronological. induction 1 as [|x l1 l2 Hs IH|x l1 l2 Hs IH];
    intros Hl; [done|..].
  - apply StronglySorted_inv in Hl as [Hl Hx]. constructor; [by apply IH|].
    rewrite Forall_forall in *. intros y Hy. apply Hx.
    eapply elem_of_sublist; [done|exact Hs].
  - apply StronglySorted_inv in Hl as [Hl _]. by apply IH.
Qed.

Lemma chronological_NoDup (l : list Z) : chronological l → NoDup l.
Proof.
  unfold chronological. induction 1 as [|x l Hl IH Hx]; [constructor|].
  apply NoDup_cons. split; [|done].
  intros Hin. rewrite Forall_forall in Hx.
  apply Hx in Hin. lia.
Qed.

(** ** find_crossovers *)

Lemma find_crossovers_masks df ms ml :
  getitem df "MA_20" = Some ms →
  getitem df "MA_50" = Some ml →
  find_crossovers df =
    Some (index_mask (index df) (eq_mask 2 (crossover_signal ms ml)),
          index_mask (index df) (eq_mask (-2) (crossover_signal ms ml))).
Proof. intros H1 H2. unfold find_crossovers. by rewrite H1, H2. Qed.

Lemma eq_mask_length k signal : length (eq_mask k signal) = length signal.
Proof. unfold eq_mask. by rewrite length_fmap. Qed.

Lemma crossovers_spec k idx ms ml :
  (k = 2 ∨ k = -2)%Z →
  length ms = length idx →
  length ml = length idx →
  index_mask idx (eq_mask k (crossover_signal ms ml)) =
    spec_crossovers k idx ms ml.
Proof.
  intros Hk Hs Hl. unfold spec_crossovers.
  apply (index_mask_seq idx _
           (λ i, bool_decide (spec_delta ms ml i = Some k)) (λ i, idx !! i) 0).
  intros i Hi. split; [|done]. simpl.
  destruct (lookup_lt_is_Some_2 (eq_mask k (crossover_signal ms ml)) i)
    as [b Hb].
  { rewrite eq_mask_length, crossover_signal_length. lia. }
  rewrite Hb. f_equal. pose proof (mask_spec_delta k ms ml i Hk) as Hiff.
  destruct b; case_bool_decide; try done.
  - by apply Hiff in Hb.
  - apply Hiff in H. congruence.
Qed.

Lemma signal_first_row k ms ml :
  eq_mask k (crossover_signal ms ml) !! 0%nat ≠ Some true.
Proof.
  rewrite eq_mask_lookup. unfold crossover_signal.
  rewrite series_diff_lookup_O.
  by destruct (crossover_sign ms ml !! 0%nat).
Qed.

(** C1. For two moving-average series of the length of the index, the
    bullish output is exactly the timestamps of the rows [i >= 1] whose
    [sign[i] - sign[i-1]] is [2], the bearish output those where it is [-2],
    both in row order, with the sign as the specification defines it; row 0
    is marked in neither mask. *)
Theorem C1_crossovers_where_delta_is_two
    (df : DataFrame) (ma_short ma_long : Series) :
  getitem df "MA_20" = Some ma_short →
  getitem df "MA_50" = Some ma_long →
  length ma_short = length (index df) →
  length ma_long = length (index df) →
  find_crossovers df =
    Some (spec_crossovers 2 (index df) ma_short ma_long,
          spec_crossovers (-2) (index df) ma_short ma_long)
  ∧ (∀ i, eq_mask 2 (crossover_signal ma_short ma_long) !! i = Some true ↔
          (1 ≤ i)%nat ∧ spec_delta ma_short ma_long i = Some 2%Z)
  ∧ (∀ i, eq_mask (-2) (crossover_signal ma_short ma_long) !! i = Some true ↔
          (1 ≤ i)%nat ∧ spec_delta ma_short ma_long i = Some (-2)%Z)
  ∧ eq_mask 2 (crossover_signal ma_short ma_long) !! 0%nat ≠ Some true
  ∧ eq_mask (-2) (crossover_signal ma_short ma_long) !! 0%nat ≠ Some true.
Proof.
  intros Hs Hl Hns Hnl.
  assert (Hguard : ∀ k i, spec_delta ma_short ma_long i = Some k → (1 ≤ i)%nat).
  { intros k i. unfold spec_delta. case_bool_decide; [done|congruence]. }
  split; [|split; [|split; [|split]]].
  - rewrite (find_crossovers_masks df ma_short ma_long Hs Hl).
    by rewrite !crossovers_spec by auto.
  - intros i. rewrite mask_spec_delta by auto.
    split; [intros H; split; [by eapply Hguard|done]|by intros [_ ?]].
  - intros i. rewrite mask_spec_delta by auto.
    split; [intros H; split; [by eapply Hguard|done]|by intros [_ ?]].
  - apply signal_first_row.
  - apply signal_first_row.
Qed.

Lemma C1_witness :
  find_crossovers frame_five = Some ([12%Z], [14%Z]).
Proof.
  destruct (C1_crossovers_where_delta_is_two frame_five short_five long_five)
    as [H _]; [reflexivity..|].
  rewrite H. vm_compute. reflexivity.
Defined.

(** C8. When the signs of the differences are [-1, -1, +1, +1, -1] the
    detector reports one bullish crossover, the timestamp of row 2, and one
    bearish crossover, the timestamp of row 4; the signal is NaN at row 0 and
    0 at rows 1 and 3. *)
Theorem C8_five_point_scenario
    (df : DataFrame) (ma_short ma_long : Series) (t0 t1 t2 t3 t4 : Z) :
  getitem df "MA_20" = Some ma_short →
  getitem df "MA_50" = Some ma_long →
  index df = [t0; t1; t2; t3; t4] →
  crossover_sign ma_short ma_long = [-1; -1; 1; 1; -1]%Z →
  find_crossovers df = Some ([t2], [t4])
  ∧ crossover_signal ma_short ma_long =
      [None; Some 0; Some 2; Some 0; Some (-2)]%Z.
Proof.
  intros Hs Hl Hidx Hsign.
  rewrite (find_crossovers_masks df ma_short ma_long Hs Hl), Hidx.
  unfold crossover_signal. rewrite Hsign. split; reflexivity.
Qed.

Lemma C8_witness :
  find_crossovers frame_five = Some ([12%Z], [14%Z])
  ∧ crossover_signal short_five long_five =
      [None; Some 0; Some 2; Some 0; Some (-2)]%Z.
Proof.
  apply (C8_five_point_scenario frame_five short_five long_five 10 11 12 13 14);
    vm_compute; reflexivity.
Defined.

(** C3. When the sign never moves by more than one between consecutive
    rows (every change of sign passes through a tie), as for the signs
    [-1, 0, +1], the detector reports no crossover at all; and a row whose
    difference is exactly zero is marked in neither mask, nor is the row
    after it. *)
Theorem C3_no_crossover_through_a_tie
    (df : DataFrame) (ma_short ma_long : Series) :
  getitem df "MA_20" = Some ma_short →
  getitem df "MA_50" = Some ma_long →
  ((∀ i a b, crossover_sign ma_short ma_long !! i = Some a →
             crossover_sign ma_short ma_long !! S i = Some b →
             (-1 ≤ b - a ≤ 1)%Z) →
   find_crossovers df = Some ([], []))
  ∧ (crossover_sign ma_short ma_long = [-1; 0; 1]%Z →
     crossover_signal ma_short ma_long = [None; Some 1; Some 1]%Z
     ∧ find_crossovers df = Some ([], []))
  ∧ (∀ i k, series_sub ma_short ma_long !! i = Some (Fin 0) →
            (k = 2 ∨ k = -2)%Z →
            eq_mask k (crossover_signal ma_short ma_long) !! i ≠ Some true
            ∧ eq_mask k (crossover_signal ma_short ma_long) !! S i ≠ Some true).
Proof.
  intros Hs Hl.
  assert (Hstep : (∀ i a b, crossover_sign ma_short ma_long !! i = Some a →
                     crossover_sign ma_short ma_long !! S i = Some b →
                     (-1 ≤ b - a ≤ 1)%Z) →
                  find_crossovers df = Some ([], [])).
  { intros Hsmall.
    rewrite (find_crossovers_masks df ma_short ma_long Hs Hl).
    assert (Hno : ∀ k, (k = 2 ∨ k = -2)%Z → ∀ i,
               eq_mask k (crossover_signal ma_short ma_long) !! i ≠ Some true).
    { intros k Hk [|j]; [apply signal_first_row|].
      rewrite eq_mask_lookup. unfold crossover_signal.
      rewrite series_diff_lookup_S.
      destruct (crossover_sign ma_short ma_long !! S j) as [b|] eqn:Eb;
        simpl; [|done].
      destruct (crossover_sign ma_short ma_long !! j) as [a|] eqn:Ea;
        simpl; [|done].
      specialize (Hsmall j a b Ea Eb). intros [= H]. lia. }
    by rewrite !index_mask_none by auto. }
  split; [exact Hstep|split].
  - intros Hsign. split.
    + unfold crossover_signal. by rewrite Hsign.
    + apply Hstep. rewrite Hsign.
      intros [|[|[|i]]] a b; simpl; intros [= <-] [= <-]; lia.
  - intros i k Hd Hk.
    assert (Hz : crossover_sign ma_short ma_long !! i = Some 0%Z).
    { unfold crossover_sign. by rewrite list_lookup_fmap, Hd. }
    split; rewrite eq_mask_lookup; unfold crossover_signal.
    + destruct i as [|j].
      * rewrite series_diff_lookup_O, Hz. done.
      * rewrite series_diff_lookup_S, Hz. simpl.
        destruct (crossover_sign ma_short ma_long !! j) as [a|] eqn:Ea;
          simpl; [|done].
        unfold crossover_sign in Ea.
        apply list_lookup_fmap_Some in Ea as (d & -> & _).
        pose proof (sign_of_range d). intros [= H']. lia.
    + rewrite series_diff_lookup_S, Hz.
      destruct (crossover_sign ma_short ma_long !! S i) as [b|] eqn:Eb;
        simpl; [|done].
      unfold crossover_sign in Eb.
      apply list_lookup_fmap_Some in Eb as (d & -> & _).
      pose proof (sign_of_range d). intros [= H']. lia.
Qed.

Lemma C3_witness :
  crossover_signal short_tie long_tie = [None; Some 1; Some 1]%Z
  ∧ find_crossovers frame_tie = Some ([], []).
Proof.
  apply (C3_no_crossover_through_a_tie frame_tie short_tie long_tie);
    vm_compute; reflexivity.
Defined.

(** C6. On a frame whose timestamps are strictly increasing, each of the
    two outputs is a subsequence of the index (the rows are reported in index
    order), is itself strictly increasing, holds no timestamp twice, and no
    timestamp is in both; no row is marked in both masks. *)
Theorem C6_outputs_ordered_and_disjoint
    (df : DataFrame) (bullish bearish : list Z) :
  chronological (index df) →
  find_crossovers df = Some (bullish, bearish) →
  bullish `sublist_of` index df
  ∧ bearish `sublist_of` index df
  ∧ chronological bullish
  ∧ chronological bearish
  ∧ NoDup bullish
  ∧ NoDup bearish
  ∧ (∀ t, t ∈ bullish → t ∉ bearish)
  ∧ (∀ ma_short ma_long i,
       ¬ (eq_mask 2 (crossover_signal ma_short ma_long) !! i = Some true
          ∧ eq_mask (-2) (crossover_signal ma_short ma_long) !! i = Some true)).
Proof.
  intros Hidx Hf. unfold find_crossovers in Hf.
  destruct (getitem df "MA_20") as [ms|]; simpl in Hf; [|done].
  destruct (getitem df "MA_50") as [ml|]; simpl in Hf; [|done].
  injection Hf as <- <-.
  pose proof (index_mask_sublist (index df)
                (eq_mask 2 (crossover_signal ms ml))) as Hb.
  pose proof (index_mask_sublist (index df)
                (eq_mask (-2) (crossover_signal ms ml))) as Hr.
  pose proof (sublist_strictly_sorted _ _ Hb Hidx) as Hsb.
  pose proof (sublist_strictly_sorted _ _ Hr Hidx) as Hsr.
  do 6 (split; [auto using chronological_NoDup|]). split.
  - intros t H1 H2.
    apply (index_mask_disjoint (index df)
             (eq_mask 2 (crossover_signal ms ml))
             (eq_mask (-2) (crossover_signal ms ml))
             (chronological_NoDup _ Hidx)) with (t := t); [|done..].
    intros i. rewrite !eq_mask_lookup. congruence.
  - intros ms' ml' i. rewrite !eq_mask_lookup. intros [H1 H2]. congruence.
Qed.

Lemma C6_witness :
  [12%Z] `sublist_of` index frame_five
  ∧ [14%Z] `sublist_of` index frame_five
  ∧ chronological [12%Z]
  ∧ chronological [14%Z]
  ∧ NoDup [12%Z]
  ∧ NoDup [14%Z]
  ∧ (∀ t, t ∈ [12%Z] → t ∉ [14%Z])
  ∧ (∀ ma_short ma_long i,
       ¬ (eq_mask 2 (crossover_signal ma_short ma_long) !! i = Some true
          ∧ eq_mask (-2) (crossover_signal ma_short ma_long) !! i = Some true)).
Proof.
  apply (C6_outputs_ordered_and_disjoint frame_five [12%Z] [14%Z]).
  - unfold chronological, frame_five, ma_frame. simpl.
    repeat (constructor; [|repeat constructor; lia]). constructor.
  - vm_compute. reflexivity.
Defined.

(** ** Rolling means and returns of finite closes *)

Lemma omap_id_Some {A} (l : list A) : omap id (Some <$> l) = l.
Proof. induction l as [|x l IH]; [done|]. simpl. f_equal. exact IH. Qed.

Lemma slice_length {A} (l : list A) a b :
  length (slice a b l) = ((b - a) `min` (length l - a))%nat.
Proof. unfold slice. by rewrite length_take, length_drop. Qed.

Lemma rolling_mean_length w m s : length (rolling_mean w m s) = length s.
Proof. unfold rolling_mean. by rewrite length_fmap, length_seq. Qed.

(** On finite cells every window of a positive size holds an observation,
    and the rolling mean is the mean of the cells of the window. *)
Lemma rolling_mean_fin w (close : list Qc) i :
  (1 ≤ w)%nat →
  (i < length close)%nat →
  rolling_mean w 1 (Fin <$> close) !! i =
    Some (Fin (mean (slice (i + 1 - w) (i + 1) close))).
Proof.
  intros Hw Hi. unfold rolling_mean.
  rewrite list_lookup_fmap, length_fmap, lookup_seq_lt by done. simpl.
  f_equal. rewrite <- list_fmap_compose.
  change (prep_value ∘ Fin) with (@Some Qc).
  unfold slice. rewrite <- fmap_drop, <- fmap_take, omap_id_Some.
  fold (slice (i + 1 - w) (i + 1) close).
  unfold calc_mean.
  assert (1 ≤ length (slice (i + 1 - w) (i + 1) close))%nat
    by (rewrite slice_length; lia).
  rewrite !bool_decide_eq_true_2 by lia. done.
Qed.

Lemma spec_moving_average_window w close i :
  (1 ≤ w)%nat →
  spec_moving_average w close i = mean (slice (i + 1 - w) (i + 1) close).
Proof.
  intros Hw. unfold spec_moving_average.
  case_bool_decide; do 2 f_equal; lia.
Qed.

Lemma ffill_from_fin last (close : list Qc) :
  ffill_from last (Fin <$> close) = Fin <$> close.
Proof.
  revert last. induction close as [|c close IH]; intros last; [done|].
  simpl. by rewrite IH.
Qed.

Lemma shift_one_lookup (s : Series) i :
  shift 1 s !! i =
    match i with
    | O => (λ _, NaN) <$> s !! 0%nat
    | S j => _ ← s !! S j; s !! j
    end.
Proof.
  unfold shift. simpl. rewrite lookup_take.
  destruct i as [|j]; simpl.
  - by destruct s.
  - case_decide as Hlt.
    + destruct (lookup_lt_is_Some_2 s (S j) Hlt) as [x ->]. done.
    + by rewrite (lookup_ge_None_2 s (S j)) by lia.
Qed.

Lemma ffill_from_length last s : length (ffill_from last s) = length s.
Proof.
  revert last. induction s as [|x s IH]; intros last; [done|].
  simpl. destruct (isna x); simpl; by rewrite IH.
Qed.

Lemma pct_change_length s : length (pct_change s) = length s.
Proof.
  unfold pct_change, shift, ffill.
  rewrite length_zip_with, length_take, length_app, ffill_from_length.
  simpl. lia.
Qed.

Lemma pct_change_fin_first (close : list Qc) c :
  close !! 0%nat = Some c →
  pct_change (Fin <$> close) !! 0%nat = Some NaN.
Proof.
  intros H. unfold pct_change, ffill. rewrite ffill_from_fin.
  rewrite lookup_zip_with, shift_one_lookup, list_lookup_fmap, H. done.
Qed.

Lemma pct_change_fin_next (close : list Qc) j c c' :
  close !! j = Some c →
  close !! S j = Some c' →
  pct_change (Fin <$> close) !! S j =
    Some (fsub (fdiv (Fin c') (Fin c)) (Fin 1)).
Proof.
  intros H H'. unfold pct_change, ffill. rewrite ffill_from_fin.
  rewrite lookup_zip_with, shift_one_lookup, !list_lookup_fmap, H, H'. done.
Qed.

Lemma dropna_first_nan (s : Series) :
  s !! 0%nat = Some NaN → dropna s = dropna (drop 1 s).
Proof. destruct s as [|x s]; [done|]. by intros [= ->]. Qed.

(** ** compute_indicators *)

Lemma compute_indicators_columns df close :
  getitem df "Close" = Some close →
  compute_indicators df =
    Some (setitem (setitem (setitem df "MA_20" (rolling_mean 20 1 close))
                     "MA_50" (rolling_mean 50 1 close))
            "Daily_Return" (pct_change close)).
Proof.
  intros H. unfold compute_indicators, copy. rewrite H. simpl.
  assert (H1 : getitem (setitem df "MA_20" (rolling_mean 20 1 close)) "Close"
               = Some close).
  { unfold getitem, setitem. simpl. by rewrite lookup_insert_ne by done. }
  rewrite H1. simpl.
  assert (H2 : getitem (setitem (setitem df "MA_20" (rolling_mean 20 1 close))
                          "MA_50" (rolling_mean 50 1 close)) "Close"
               = Some close).
  { unfold getitem, setitem in *. simpl in *.
    by rewrite lookup_insert_ne by done. }
  by rewrite H2.
Qed.

Lemma price_frame_close rows others :
  getitem (price_frame rows others) "Close" = Some (Fin <$> rows.*2).
Proof. unfold getitem, price_frame. simpl. apply lookup_insert_eq. Qed.

Lemma compute_indicators_price rows others :
  compute_indicators (price_frame rows others) =
    Some (indicator_frame rows others).
Proof. apply compute_indicators_columns, price_frame_close. Qed.

Lemma indicator_frame_columns rows others :
  index (indicator_frame rows others) = rows.*1
  ∧ getitem (indicator_frame rows others) "Close" = Some (Fin <$> rows.*2)
  ∧ getitem (indicator_frame rows others) "MA_20" =
      Some (rolling_mean 20 1 (Fin <$> rows.*2))
  ∧ getitem (indicator_frame rows others) "MA_50" =
      Some (rolling_mean 50 1 (Fin <$> rows.*2))
  ∧ getitem (indicator_frame rows others) "Daily_Return" =
      Some (pct_change (Fin <$> rows.*2)).
Proof.
  unfold indicator_frame, getitem, setitem, price_frame. simpl.
  split; [done|]. split; [|split; [|split]].
  - rewrite !lookup_insert_ne by done. apply lookup_insert_eq.
  - rewrite !lookup_insert_ne by done. apply lookup_insert_eq.
  - rewrite lookup_insert_ne by done. apply lookup_insert_eq.
  - apply lookup_insert_eq.
Qed.

Lemma moving_average_lookup w (rows : list (Z * Qc)) i :
  (1 ≤ w)%nat →
  (i < length rows)%nat →
  rolling_mean w 1 (Fin <$> rows.*2) !! i =
    Some (Fin (spec_moving_average w (rows.*2) i)).
Proof.
  intros Hw Hi. rewrite spec_moving_average_window by done.
  apply rolling_mean_fin; [done|]. by rewrite length_fmap.
Qed.

(** ** The numeric steps in any cell arithmetic *)

Section CellsLemmas.
Context (R : Cells.Arithmetic).
Implicit Types (s values close : list (Cells.cell R)) (st : Cells.mean_state R).










(** ** roll_mean, row by row *)

Lemma cells_roll_rows_length w m values st i n :
  length (Cells.roll_rows R w m values st i n) = n.
Proof.
  revert st i. induction n as [|n IH]; intros st i; [done|].
  simpl. by rewrite IH.
Qed.

Lemma cells_rolling_mean_length w m s :
  length (Cells.rolling_mean R w m s) = length s.
Proof.
  unfold Cells.rolling_mean, Cells.roll_mean, Cells.prep_values.
  by rewrite cells_roll_rows_length, length_fmap.
Qed.

Lemma cells_roll_rows_lookup w m values st i n k :
  (k < n)%nat →
  Cells.roll_rows R w m values st i n !! k =
    Some (Cells.calc_mean R m (Cells.rows_state R w values st i k)).
Proof.
  revert st i k. induction n as [|n IH]; intros st i k Hk; [lia|].
  destruct k as [|k]; [done|]. simpl. apply IH. lia.
Qed.

Lemma cells_rows_state_S w values st i k :
  Cells.rows_state R w values st i (S k) =
    Cells.row_state R w values (S (i + k)) (Cells.rows_state R w values st i k).
Proof.
  revert st i. induction k as [|k IH]; intros st i.
  - simpl. by rewrite Nat.add_0_r.
  - change (Cells.rows_state R w values st i (S (S k))) with
      (Cells.rows_state R w values (Cells.row_state R w values i st) (S i) (S k)).
    rewrite IH. simpl. do 2 f_equal. lia.
Qed.

Lemma cells_roll_mean_lookup w m values i :
  (i < length values)%nat →
  Cells.roll_mean R values w m !! i =
    Some (Cells.calc_mean R m (Cells.state_at R w values i)).
Proof. intros Hi. unfold Cells.roll_mean. by rewrite cells_roll_rows_lookup. Qed.

Lemma cells_prep_values_finite close :
  Forall (Cells.finite R) close → Cells.prep_values R close = close.
Proof.
  intros H. unfold Cells.prep_values.
  induction H as [|c close [_ Hc] _ IH]; [done|].
  simpl. rewrite Hc. f_equal. exact IH.
Qed.

Lemma slice_one {A} (l : list A) i j x :
  j = S i → l !! i = Some x → slice i j l = [x].
Proof.
  intros -> H. unfold slice. replace (S i - i)%nat with 1%nat by lia.
  rewrite (drop_S l x i H). done.
Qed.

(** The first row sets the window up from the first value. *)
Lemma cells_state_at_first w values v :
  (1 ≤ w)%nat →
  values !! 0%nat = Some v →
  Cells.state_at R w values 0 = Cells.add_mean R (Cells.fresh R v) v.
Proof.
  intros Hw Hv. unfold Cells.state_at. simpl.
  unfold Cells.row_state, window_bounds.
  replace (0 + 1 - w)%nat with 0%nat by lia.
  rewrite bool_decide_eq_true_2 by done. simpl.
  rewrite (slice_one values 0 1 v eq_refl Hv).
  destruct values as [|v0 values]; [done|]. by injection Hv as ->.
Qed.

(** While the window grows, a row adds its value. *)
Lemma cells_state_at_grow w values i v :
  (S (S i) ≤ w)%nat →
  values !! S i = Some v →
  Cells.state_at R w values (S i) =
    Cells.add_mean R (Cells.state_at R w values i) v.
Proof.
  intros Hw Hv. unfold Cells.state_at.
  rewrite cells_rows_state_S. simpl.
  unfold Cells.row_state at 1, window_bounds.
  replace (S i - 1 + 1 - w)%nat with 0%nat by lia.
  replace (S i + 1 - w)%nat with 0%nat by lia.
  replace (S i - 1 + 1)%nat with (S i) by lia.
  rewrite bool_decide_eq_false_2 by done.
  rewrite bool_decide_eq_false_2 by lia. simpl.
  erewrite (slice_one values (S i)); [|lia|exact Hv].
  unfold slice. done.
Qed.

(** Once the window is full, a row removes the value that leaves and adds
    its own. *)
Lemma cells_state_at_slide w values i u v :
  (2 ≤ w)%nat →
  (w ≤ S i)%nat →
  values !! (S i - w)%nat = Some u →
  values !! S i = Some v →
  Cells.state_at R w values (S i) =
    Cells.add_mean R (Cells.remove_mean R (Cells.state_at R w values i) u) v.
Proof.
  intros Hw Hi Hu Hv. unfold Cells.state_at.
  rewrite cells_rows_state_S. simpl.
  unfold Cells.row_state at 1, window_bounds.
  replace (S i - 1 + 1 - w)%nat with (S i - w)%nat by lia.
  replace (S i + 1 - w)%nat with (S i - w + 1)%nat by lia.
  replace (S i - 1 + 1)%nat with (S i) by lia.
  rewrite bool_decide_eq_false_2 by done.
  rewrite bool_decide_eq_false_2 by lia. simpl.
  erewrite (slice_one values (S i - w)); [|lia|exact Hu].
  by erewrite (slice_one values (S i)); [|lia|exact Hv].
Qed.

(** Below the window size the state is the one set up from the first value
    with the values up to the row added in row order. *)
Lemma cells_state_at_prefix w values i v0 :
  (i < w)%nat →
  (i < length values)%nat →
  values !! 0%nat = Some v0 →
  Cells.state_at R w values i =
    foldl (Cells.add_mean R) (Cells.fresh R v0) (slice 0 (i + 1) values).
Proof.
  intros Hw Hi Hv0. induction i as [|i IH].
  - rewrite (cells_state_at_first w values v0) by (done || lia).
    by rewrite (slice_one values 0 (0 + 1) v0 eq_refl Hv0).
  - destruct (lookup_lt_is_Some_2 values (S i) Hi) as [v Hv].
    rewrite (cells_state_at_grow w values i v) by (done || lia).
    rewrite IH by lia. unfold slice. rewrite !drop_0, !Nat.sub_0_r.
    replace (S i + 1)%nat with (S (i + 1)) by lia.
    rewrite (take_S_r values (i + 1) v) by (by replace (i + 1)%nat with (S i) by lia).
    by rewrite foldl_app.
Qed.




End CellsLemmas.

(** ** compute_indicators in any cell arithmetic *)

Lemma cells_compute_indicators_price (R : Cells.Arithmetic)
    (rows : list (Z * Cells.cell R))
    (others : gmap string (list (Cells.cell R))) :
  ∃ df,
    Cells.compute_indicators R (Cells.price_frame R rows others) = Some df
    ∧ Cells.index R df = rows.*1
    ∧ Cells.getitem R df "MA_20" = Some (Cells.rolling_mean R 20 1 (rows.*2))
    ∧ Cells.getitem R df "MA_50" = Some (Cells.rolling_mean R 50 1 (rows.*2))
    ∧ Cells.getitem R df "Daily_Return" = Some (Cells.pct_change R (rows.*2)).
Proof.
  unfold Cells.compute_indicators, Cells.copy, Cells.price_frame.
  unfold Cells.getitem, Cells.setitem. cbn [Cells.columns Cells.index].
  rewrite lookup_insert_eq. cbn [mbind option_bind].
  rewrite lookup_insert_ne by done. rewrite lookup_insert_eq.
  cbn [mbind option_bind].
  rewrite !lookup_insert_ne by done. rewrite lookup_insert_eq.
  cbn [mbind option_bind].
  eexists. split; [reflexivity|]. cbn [Cells.columns Cells.index].
  split; [done|]. split; [|split].
  - rewrite !lookup_insert_ne by done. apply lookup_insert_eq.
  - rewrite lookup_insert_ne by done. apply lookup_insert_eq.
  - apply lookup_insert_eq.
Qed.








(** ** roll_mean in exact arithmetic

    Run on rational cells, pandas' running mean is the arithmetic mean of
    the window: the compensation stays zero, the running sum is the sum of
    the window, and none of the special cases of calc_mean changes the
    quotient.  So [rolling_mean] above is [Cells.rolling_mean exact]. *)

Lemma Qc_of_nat_S n : Qc_of_nat (S n) = Qc_of_nat n + 1.
Proof.
  unfold Qc_of_nat. rewrite Nat2Z.inj_succ, <- Z.add_1_r.
  by rewrite Z2Qc_inj_add, Z2Qc_inj_1.
Qed.

Lemma Qc_of_nat_pos n : (0 < n)%nat → 0 < Qc_of_nat n.
Proof.
  intros Hn. unfold Qc_of_nat. rewrite <- Z2Qc_inj_0.
  apply (proj1 (Z2Qc_inj_lt 0 (Z.of_nat n))). lia.
Qed.

Lemma sum_Qc_snoc (l : list Qc) (c : Qc) : sum_Qc (l ++ [c]) = sum_Qc l + c.
Proof.
  induction l as [|x l IH]; unfold sum_Qc in *; simpl; [ring|].
  rewrite IH. ring.
Qed.

Lemma negatives_snoc (l : list Qc) (c : Qc) :
  negatives (l ++ [c]) =
    (negatives l + if bool_decide (c < 0)%Qc then 1 else 0)%nat.
Proof.
  unfold negatives. rewrite filter_app, length_app. f_equal.
  case_bool_decide.
  - by rewrite filter_cons_True.
  - by rewrite filter_cons_False.
Qed.

Lemma negatives_cons (c : Qc) (l : list Qc) :
  negatives (c :: l) =
    ((if bool_decide (c < 0)%Qc then 1 else 0) + negatives l)%nat.
Proof.
  unfold negatives. case_bool_decide.
  - by rewrite filter_cons_True.
  - by rewrite filter_cons_False.
Qed.

Lemma window_first (close : list Qc) w c :
  (1 ≤ w)%nat → close !! 0%nat = Some c → slice (0 + 1 - w) (0 + 1) close = [c].
Proof.
  intros Hw Hc. replace (0 + 1 - w)%nat with 0%nat by lia.
  by apply slice_one.
Qed.

Lemma window_grow (close : list Qc) w i v :
  (S (S i) ≤ w)%nat →
  close !! S i = Some v →
  slice (S i + 1 - w) (S i + 1) close = slice (i + 1 - w) (i + 1) close ++ [v].
Proof.
  intros Hw Hv. unfold slice.
  replace (S i + 1 - w)%nat with 0%nat by lia.
  replace (i + 1 - w)%nat with 0%nat by lia.
  rewrite !drop_0, !Nat.sub_0_r.
  replace (S i + 1)%nat with (S (i + 1)) by lia.
  apply take_S_r. by replace (i + 1)%nat with (S i) by lia.
Qed.

Lemma window_slide (close : list Qc) w i u v :
  (1 ≤ w)%nat →
  (w ≤ S i)%nat →
  close !! (S i - w)%nat = Some u →
  close !! S i = Some v →
  ∃ rest, slice (i + 1 - w) (i + 1) close = u :: rest
          ∧ slice (S i + 1 - w) (S i + 1) close = rest ++ [v].
Proof.
  intros Hw Hi Hu Hv. unfold slice.
  replace (i + 1 - w)%nat with (S i - w)%nat by lia.
  replace (i + 1 - (S i - w))%nat with (S (w - 1)) by lia.
  replace (S i + 1 - w)%nat with (S (S i - w)) by lia.
  replace (S i + 1 - S (S i - w))%nat with (S (w - 1)) by lia.
  rewrite (drop_S close u (S i - w) Hu).
  exists (take (w - 1) (drop (S (S i - w)) close)).
  split; [done|].
  apply take_S_r. rewrite lookup_drop.
  by replace (S (S i - w) + (w - 1))%nat with (S i) by lia.
Qed.

Lemma feq_Fin (a b : Qc) : feq (Fin a) (Fin b) = bool_decide (a = b).
Proof.
  unfold feq. simpl. case_bool_decide as H.
  - subst. by rewrite Qc_compare_refl.
  - destruct (a ?= b) eqn:E; try done. by apply Qceq_alt in E.
Qed.

Lemma flt_Fin (a b : Qc) : flt (Fin a) (Fin b) = bool_decide (a < b).
Proof.
  unfold flt. simpl. case_bool_decide as H.
  - by rewrite (proj1 (Qclt_alt a b) H).
  - by destruct (a ?= b) eqn:E.
Qed.

Lemma exact_add_mean (st : Cells.mean_state exact) (s c : Qc) :
  Cells.sum_x exact st = Fin s →
  Cells.compensation_add exact st = Fin 0 →
  Cells.add_mean exact st (Fin c) =
    Cells.mkState exact
      (S (Cells.nobs exact st)) (Fin (s + c))
      (if bool_decide (c < 0) then S (Cells.neg_ct exact st)
       else Cells.neg_ct exact st)
      (Fin 0) (Cells.compensation_remove exact st)
      (if feq (Fin c) (Cells.prev_value exact st)
       then S (Cells.num_consecutive_same_value exact st) else 1%nat)
      (Fin c).
Proof.
  intros Hs Hc. unfold Cells.add_mean. cbn [Cells.eqb Cells.sub Cells.add
    Cells.signbit exact].
  rewrite feq_Fin, bool_decide_eq_true_2 by done.
  rewrite Hs, Hc, flt_Fin. cbn [fsub fadd].
  f_equal; f_equal; ring.
Qed.

Lemma exact_remove_mean (st : Cells.mean_state exact) (s c : Qc) :
  Cells.sum_x exact st = Fin s →
  Cells.compensation_remove exact st = Fin 0 →
  Cells.remove_mean exact st (Fin c) =
    Cells.mkState exact
      (pred (Cells.nobs exact st)) (Fin (s - c))
      (if bool_decide (c < 0) then pred (Cells.neg_ct exact st)
       else Cells.neg_ct exact st)
      (Cells.compensation_add exact st) (Fin 0)
      (Cells.num_consecutive_same_value exact st)
      (Cells.prev_value exact st).
Proof.
  intros Hs Hc. unfold Cells.remove_mean. cbn [Cells.eqb Cells.sub Cells.add
    Cells.neg Cells.signbit exact].
  rewrite feq_Fin, bool_decide_eq_true_2 by done.
  rewrite Hs, Hc, flt_Fin. cbn [fsub fadd fneg].
  f_equal; f_equal; ring.
Qed.

Lemma exact_state_first (close : list Qc) w c :
  (1 ≤ w)%nat →
  close !! 0%nat = Some c →
  exact_state close w 0
    (Cells.add_mean exact (Cells.fresh exact (Fin c)) (Fin c)).
Proof.
  intros Hw Hc. unfold exact_state.
  rewrite (window_first close w c Hw Hc).
  rewrite (exact_add_mean (Cells.fresh exact (Fin c)) 0 c) by reflexivity.
  cbn [Cells.nobs Cells.sum_x Cells.compensation_add Cells.compensation_remove
       Cells.neg_ct Cells.prev_value Cells.num_consecutive_same_value
       Cells.fresh Cells.zero exact].
  rewrite feq_Fin, (bool_decide_eq_true_2 (c = c)) by done.
  split; [done|]. split; [unfold sum_Qc; simpl; f_equal; ring|].
  split; [done|]. split; [done|].
  split; [rewrite negatives_cons; unfold negatives; simpl;
          by case_bool_decide|].
  exists c. split; [done|]. split; [done|]. split; [lia|].
  intros j _ Hj. by replace (0 - j)%nat with 0%nat by lia.
Qed.

(** The closes that ended at the row before are followed by one more
    close: the count of equal closes that end at this row. *)
Lemma exact_run_of_equal_closes (close : list Qc) i (c v : Qc) (k : nat) :
  close !! i = Some c →
  close !! S i = Some v →
  (1 ≤ k)%nat →
  (∀ j, (j < k)%nat → (j ≤ i)%nat → close !! (i - j)%nat = Some c) →
  let k' := if feq (Fin v) (Fin c) then S k else 1%nat in
  (1 ≤ k')%nat
  ∧ ∀ j, (j < k')%nat → (j ≤ S i)%nat → close !! (S i - j)%nat = Some v.
Proof.
  intros Hc Hv Hk Hrun. rewrite feq_Fin. case_bool_decide as E; simpl.
  - subst v. split; [lia|]. intros [|j] Hj Hji; [done|].
    replace (S i - S j)%nat with (i - j)%nat by lia. apply Hrun; lia.
  - split; [lia|]. intros j Hj _. by replace j with 0%nat by lia.
Qed.

Lemma exact_state_grow (close : list Qc) w i v st :
  (S (S i) ≤ w)%nat →
  close !! S i = Some v →
  exact_state close w i st →
  exact_state close w (S i) (Cells.add_mean exact st (Fin v)).
Proof.
  intros Hw Hv (Hn & Hs & Ha & Hr & Hneg & c & Hc & Hp & Hk & Hrun).
  unfold exact_state. rewrite (window_grow close w i v Hw Hv).
  rewrite (exact_add_mean st _ v Hs Ha).
  cbn [Cells.nobs Cells.sum_x Cells.compensation_add Cells.compensation_remove
       Cells.neg_ct Cells.prev_value Cells.num_consecutive_same_value].
  rewrite length_app, sum_Qc_snoc, negatives_snoc, Hn, Hneg, Hp. simpl.
  split; [lia|]. split; [done|]. split; [done|]. split; [done|].
  split; [case_bool_decide; lia|].
  exists v. split; [done|]. split; [done|].
  by apply (exact_run_of_equal_closes close i c v).
Qed.

Lemma exact_state_slide (close : list Qc) w i u v st :
  (1 ≤ w)%nat →
  (w ≤ S i)%nat →
  close !! (S i - w)%nat = Some u →
  close !! S i = Some v →
  exact_state close w i st →
  exact_state close w (S i)
    (Cells.add_mean exact (Cells.remove_mean exact st (Fin u)) (Fin v)).
Proof.
  intros Hw Hi Hu Hv (Hn & Hs & Ha & Hr & Hneg & c & Hc & Hp & Hk & Hrun).
  unfold exact_state.
  destruct (window_slide close w i u v Hw Hi Hu Hv) as (rest & E & ->).
  rewrite E in Hn, Hs, Hneg.
  rewrite (exact_remove_mean st _ u Hs Hr).
  rewrite (exact_add_mean _ (sum_Qc (u :: rest) - u) v) by done.
  cbn [Cells.nobs Cells.sum_x Cells.compensation_add Cells.compensation_remove
       Cells.neg_ct Cells.prev_value Cells.num_consecutive_same_value].
  rewrite length_app, sum_Qc_snoc, negatives_snoc, Hn, Hneg, Hp.
  rewrite negatives_cons. simpl.
  split; [lia|].
  split; [f_equal; unfold sum_Qc; simpl; ring|].
  split; [done|]. split; [done|].
  split; [repeat case_bool_decide; lia|].
  exists v. split; [done|]. split; [done|].
  by apply (exact_run_of_equal_closes close i c v).
Qed.

Lemma exact_state_at (close : list Qc) w i :
  (2 ≤ w)%nat →
  (i < length close)%nat →
  exact_state close w i (Cells.state_at exact w (Fin <$> close) i).
Proof.
  intros Hw Hi. induction i as [|i IH].
  - destruct (lookup_lt_is_Some_2 close 0 Hi) as [c Hc].
    rewrite (cells_state_at_first exact w _ (Fin c))
      by (lia || by rewrite list_lookup_fmap, Hc).
    apply exact_state_first; [lia|done].
  - destruct (lookup_lt_is_Some_2 close (S i) Hi) as [v Hv].
    specialize (IH ltac:(lia)).
    destruct (decide (S (S i) ≤ w)%nat) as [Hgrow|Hfull].
    + rewrite (cells_state_at_grow exact w _ i (Fin v))
        by (done || by rewrite list_lookup_fmap, Hv).
      by apply exact_state_grow.
    + destruct (lookup_lt_is_Some_2 close (S i - w)) as [u Hu]; [lia|].
      rewrite (cells_state_at_slide exact w _ i (Fin u) (Fin v))
        by (lia || by rewrite list_lookup_fmap, ?Hu, ?Hv).
      apply exact_state_slide; (lia || done).
Qed.

Lemma sum_Qc_const (c : Qc) (l : list Qc) :
  Forall (λ x, x = c) l → sum_Qc l = Qc_of_nat (length l) * c.
Proof.
  induction 1 as [|x l -> _ IH]; cbn [length].
  - unfold sum_Qc. simpl. change (Qc_of_nat 0) with (Qc_of_Z 0).
    rewrite Z2Qc_inj_0. ring.
  - rewrite Qc_of_nat_S. unfold sum_Qc in *. simpl. rewrite IH. ring.
Qed.

Lemma mean_const (c : Qc) (l : list Qc) :
  (0 < length l)%nat → Forall (λ x, x = c) l → mean l = c.
Proof.
  intros Hn Hall. unfold mean. rewrite (sum_Qc_const c l Hall).
  pose proof (Qc_of_nat_pos _ Hn) as Hpos.
  field. intros E. rewrite E in Hpos. by apply Qclt_not_eq in Hpos.
Qed.

Lemma negatives_none (l : list Qc) :
  negatives l = 0%nat → Forall (λ x, 0 ≤ x ∧ x ≤ x) l.
Proof.
  induction l as [|x l IH]; [constructor|].
  rewrite negatives_cons. case_bool_decide as H; [lia|]. intros E.
  constructor; [|by apply IH].
  split; [by apply Qcnot_lt_le|apply Qcle_refl].
Qed.

Lemma negatives_all (l : list Qc) :
  negatives l = length l → Forall (λ x, x < 0) l.
Proof.
  induction l as [|x l IH]; [constructor|].
  rewrite negatives_cons. cbn [length].
  assert (Hle : (negatives l ≤ length l)%nat) by apply length_filter.
  case_bool_decide as H; [|lia]. intros E.
  constructor; [done|]. apply IH. lia.
Qed.

Lemma sum_Qc_nonpositive (l : list Qc) :
  Forall (λ x, x < 0) l → sum_Qc l ≤ 0.
Proof.
  induction 1 as [|x l Hx _ IH]; unfold sum_Qc in *; simpl.
  - apply Qcle_refl.
  - replace 0 with (0 + 0) by ring.
    apply Qcplus_le_compat; [by apply Qclt_le_weak|done].
Qed.

Lemma sum_Qc_negative (l : list Qc) :
  (0 < length l)%nat → Forall (λ x, x < 0) l → sum_Qc l < 0.
Proof.
  intros Hn Hall. destruct l as [|x l]; [simpl in Hn; lia|].
  apply Forall_cons in Hall as [Hx Hall].
  apply sum_Qc_nonpositive in Hall.
  unfold sum_Qc in *. cbn [foldr].
  apply Qcle_lt_trans with (x + 0).
  - by apply Qcplus_le_mono_l.
  - by replace (x + 0) with x by ring.
Qed.

Lemma sum_Qc_nonnegative (l : list Qc) :
  Forall (λ x, 0 ≤ x) l → 0 ≤ sum_Qc l.
Proof.
  induction 1 as [|x l Hx _ IH]; unfold sum_Qc in *; simpl.
  - apply Qcle_refl.
  - replace 0 with (0 + 0) by ring. by apply Qcplus_le_compat.
Qed.

Lemma mean_sign (l : list Qc) :
  (0 < length l)%nat →
  (Forall (λ x, 0 ≤ x) l → ¬ mean l < 0)
  ∧ (Forall (λ x, x < 0) l → ¬ 0 < mean l).
Proof.
  intros Hn. pose proof (Qc_of_nat_pos _ Hn) as Hpos.
  assert (Hne : Qc_of_nat (length l) ≠ 0).
  { intros E. rewrite E in Hpos. by apply Qclt_not_eq in Hpos. }
  assert (Hmean : mean l * Qc_of_nat (length l) = sum_Qc l).
  { unfold mean. field. done. }
  split; intros Hall Hm.
  - apply sum_Qc_nonnegative in Hall. rewrite <- Hmean in Hall.
    apply Qcle_not_lt in Hall. apply Hall.
    replace 0 with (0 * Qc_of_nat (length l)) by ring.
    by apply Qcmult_lt_compat_r.
  - apply (sum_Qc_negative l Hn) in Hall. rewrite <- Hmean in Hall.
    apply Qclt_not_le in Hall. apply Hall.
    replace 0 with (0 * Qc_of_nat (length l)) by ring.
    apply Qcmult_le_compat_r; [by apply Qclt_le_weak|by apply Qclt_le_weak].
Qed.

Lemma exact_calc_mean (close : list Qc) w i st :
  (1 ≤ w)%nat →
  (i < length close)%nat →
  exact_state close w i st →
  Cells.calc_mean exact 1 st = Fin (mean (slice (i + 1 - w) (i + 1) close)).
Proof.
  intros Hw Hi (Hn & Hs & _ & _ & Hneg & c & Hc & Hp & Hk & Hrun).
  set (window := slice (i + 1 - w) (i + 1) close) in *.
  assert (Hlen : length window = (S i `min` w)%nat)
    by (unfold window; rewrite slice_length; lia).
  assert (Hpos : (0 < length window)%nat) by lia.
  unfold Cells.calc_mean. rewrite Hn.
  rewrite !bool_decide_eq_true_2 by lia. cbn [andb].
  cbn [Cells.div Cells.of_nat Cells.ltb Cells.zero exact].
  rewrite Hs, Hneg, Hp.
  assert (Hdiv : fdiv (Fin (sum_Qc window)) (Fin (Qc_of_nat (length window)))
                 = Fin (mean window)).
  { unfold fdiv. rewrite decide_False; [done|].
    intros E. pose proof (Qc_of_nat_pos _ Hpos) as H0.
    rewrite E in H0. by apply Qclt_not_eq in H0. }
  rewrite Hdiv, !flt_Fin.
  destruct (mean_sign window Hpos) as [Hnonneg Hnegative].
  case_bool_decide as Hsame.
  - f_equal. symmetry. apply mean_const; [done|].
    apply Forall_lookup. intros j x Hj.
    assert (Hjlt : (j < length window)%nat) by (by eapply lookup_lt_Some).
    unfold window, slice in Hj.
    rewrite lookup_take_lt, lookup_drop in Hj by lia.
    specialize (Hrun (i - (i + 1 - w + j))%nat ltac:(lia) ltac:(lia)).
    replace (i - (i - (i + 1 - w + j)))%nat with (i + 1 - w + j)%nat
      in Hrun by lia.
    congruence.
  - case_bool_decide as Hnone.
    + rewrite bool_decide_eq_false_2; [|apply Hnonneg].
      * simpl. case_bool_decide as Hall; [|done].
        rewrite bool_decide_eq_false_2; [done|].
        apply Hnegative, negatives_all. congruence.
      * eapply Forall_impl; [by apply negatives_none|]. by intros x [? _].
    + simpl. case_bool_decide as Hall; [|done].
      rewrite bool_decide_eq_false_2; [done|].
      apply Hnegative, negatives_all. done.
Qed.

(** In exact arithmetic pandas' running mean is the mean of the window. *)
Lemma exact_rolling_mean (w : nat) (close : list Qc) :
  (2 ≤ w)%nat →
  Cells.rolling_mean exact w 1 (Fin <$> close) = rolling_mean w 1 (Fin <$> close).
Proof.
  intros Hw. apply list_eq. intros i.
  destruct (decide (i < length close)%nat) as [Hi|Hi].
  - rewrite rolling_mean_fin by (lia || done).
    unfold Cells.rolling_mean.
    rewrite cells_prep_values_finite.
    2:{ apply Forall_fmap, Forall_true. intros c. split; [|done].
        change (feq (Fin c) (Fin c) = true). rewrite feq_Fin.
        by apply bool_decide_eq_true_2. }
    rewrite cells_roll_mean_lookup by (by rewrite length_fmap).
    f_equal. apply (exact_calc_mean close w i); [lia|done|].
    by apply exact_state_at.
  - rewrite !lookup_ge_None_2; [done| |].
    + rewrite rolling_mean_length, length_fmap. lia.
    + rewrite cells_rolling_mean_length, length_fmap. lia.
Qed.

(** So in exact arithmetic the cell of a moving average is the mean that
    C2 first stated: of [close[0..i]] below the window size, of the trailing
    [w] values from there on.  Rounding is all that separates the binary64
    cell from it. *)
Lemma exact_moving_average (w : nat) (rows : list (Z * Qc)) (i : nat) :
  (2 ≤ w)%nat →
  (i < length rows)%nat →
  Cells.rolling_mean exact w 1 (Fin <$> rows.*2) !! i =
    Some (Fin (spec_moving_average w (rows.*2) i)).
Proof.
  intros Hw Hi. rewrite exact_rolling_mean by done.
  apply moving_average_lookup; [lia|done].
Qed.

Lemma exact_isna (x : float64) : Cells.isna exact x = isna x.
Proof.
  unfold Cells.isna. cbn [Cells.eqb exact].
  destruct x as [q| | |]; try done.
  by rewrite feq_Fin, bool_decide_eq_true_2.
Qed.

Lemma exact_ffill_from (last : float64) (s : Series) :
  Cells.ffill_from exact last s = ffill_from last s.
Proof.
  revert last. induction s as [|x s IH]; intros last; [done|].
  cbn [Cells.ffill_from ffill_from]. rewrite exact_isna.
  destruct (isna x); f_equal; apply IH.
Qed.

(** [pct_change] above is [Cells.pct_change exact]. *)
Lemma exact_pct_change (s : Series) : Cells.pct_change exact s = pct_change s.
Proof.
  unfold Cells.pct_change, pct_change, Cells.ffill, ffill, Cells.shift, shift.
  by rewrite exact_ffill_from.
Qed.

(** And in exact arithmetic the return is the quotient of the difference
    that C5 first stated. *)
Lemma exact_daily_return (close : list Qc) (j : nat) (c c' : Qc) :
  close !! j = Some c →
  close !! S j = Some c' →
  Cells.pct_change exact (Fin <$> close) !! S j =
    Some (fdiv (Fin (c' - c)) (Fin c)).
Proof.
  intros H H'. rewrite exact_pct_change, <- pct_formula.
  by apply pct_change_fin_next.
Qed.

Lemma all2_lookup {A B} (p : A → B → bool) l k :
  all2 p l k = true →
  ∀ i a b, l !! i = Some a → k !! i = Some b → p a b = true.
Proof.
  revert k. induction l as [|x l IH]; intros [|y k] H i a b; try done.
  simpl in H. apply andb_prop in H as [Hp Hrest].
  destruct i as [|i]; simpl.
  - by intros [= ->] [= ->].
  - by apply IH.
Qed.

(** ** The first rows of the indicator frame *)

Lemma mean_singleton (c : Qc) : mean [c] = c.
Proof.
  unfold mean, sum_Qc. simpl.
  replace (Qc_of_nat 1) with 1 by (by apply Qc_is_canon). field. discriminate.
Qed.

Lemma averages_agree (rows : list (Z * Qc)) i :
  (i < 20)%nat →
  (i < length rows)%nat →
  ∃ m, rolling_mean 20 1 (Fin <$> rows.*2) !! i = Some (Fin m)
       ∧ rolling_mean 50 1 (Fin <$> rows.*2) !! i = Some (Fin m).
Proof.
  intros H20 Hi. exists (mean (slice 0 (i + 1) (rows.*2))).
  rewrite !rolling_mean_fin by (rewrite ?length_fmap; lia).
  by replace (i + 1 - 20)%nat with 0%nat by lia;
     replace (i + 1 - 50)%nat with 0%nat by lia.
Qed.

Lemma sign_zero_first_rows (rows : list (Z * Qc)) i :
  (i < 20)%nat →
  (i < length rows)%nat →
  crossover_sign (rolling_mean 20 1 (Fin <$> rows.*2))
                 (rolling_mean 50 1 (Fin <$> rows.*2)) !! i = Some 0%Z.
Proof.
  intros H20 Hi. destruct (averages_agree rows i H20 Hi) as (m & Hs & Hl).
  rewrite crossover_sign_lookup, Hs, Hl. simpl.
  f_equal. apply fsub_diag_sign.
Qed.

Lemma no_mark_first_rows (rows : list (Z * Qc)) k i :
  (k = 2 ∨ k = -2)%Z →
  (i < 21)%nat →
  eq_mask k (crossover_signal (rolling_mean 20 1 (Fin <$> rows.*2))
                              (rolling_mean 50 1 (Fin <$> rows.*2))) !! i
    ≠ Some true.
Proof.
  intros Hk Hi. destruct i as [|j]; [apply signal_first_row|].
  rewrite eq_mask_lookup. unfold crossover_signal.
  rewrite series_diff_lookup_S.
  set (sign := crossover_sign _ _).
  destruct (sign !! S j) as [b|] eqn:Eb; simpl; [|done].
  assert (Hlen : (S j < length rows)%nat).
  { apply lookup_lt_Some in Eb. subst sign. unfold crossover_sign in Eb.
    rewrite length_fmap in Eb. unfold series_sub in Eb.
    rewrite length_zip_with, !rolling_mean_length, !length_fmap in Eb. lia. }
  subst sign. rewrite (sign_zero_first_rows rows j) by lia. simpl.
  unfold crossover_sign in Eb.
  apply list_lookup_fmap_Some in Eb as (d & -> & _).
  pose proof (sign_of_range d). intros [= H']. lia.
Qed.

Lemma index_mask_nil_r {A} (idx : list A) : index_mask idx [] = [].
Proof. by destruct idx. Qed.

Lemma index_mask_drop {A} n (idx : list A) mask :
  (∀ i, (i < n)%nat → mask !! i ≠ Some true) →
  index_mask idx mask = index_mask (drop n idx) (drop n mask).
Proof.
  revert idx mask. induction n as [|n IH]; intros idx mask H; [done|].
  destruct idx as [|t idx]; [done|].
  destruct mask as [|b mask]; [simpl; by rewrite index_mask_nil_r|].
  destruct b; [by destruct (H 0%nat); [lia|]|].
  simpl. apply IH. intros i Hi. apply (H (S i)). lia.
Qed.

Lemma first_row_average w (rows : list (Z * Qc)) c :
  (1 ≤ w)%nat →
  rows.*2 !! 0%nat = Some c →
  rolling_mean w 1 (Fin <$> rows.*2) !! 0%nat = Some (Fin c).
Proof.
  intros Hw Hc. destruct (rows.*2) as [|c0 close] eqn:E; [done|].
  injection Hc as ->.
  rewrite rolling_mean_fin by (simpl; lia).
  replace (0 + 1 - w)%nat with 0%nat by lia.
  do 2 f_equal. apply mean_singleton.
Qed.

(** C10, as amended. For every PriceSeries both averages equal the close at
    row 0, so the difference and the sign are 0 there; the two averages
    coincide on every row below 20, no row below 21 is marked, and both
    outputs are taken from the index after its first 21 timestamps.  Row 21
    is reached: on [rows_bump] the detector reports a bearish crossover
    there. *)
Theorem C10_earliest_crossover_row :
  (∀ (rows : list (Z * Qc)) (others : gmap string Series),
     ∃ df ma_short ma_long bullish bearish,
       compute_indicators (price_frame rows others) = Some df
       ∧ getitem df "MA_20" = Some ma_short
       ∧ getitem df "MA_50" = Some ma_long
       ∧ find_crossovers df = Some (bullish, bearish)
       ∧ (∀ c, rows.*2 !! 0%nat = Some c →
            ma_short !! 0%nat = Some (Fin c)
            ∧ ma_long !! 0%nat = Some (Fin c)
            ∧ series_sub ma_short ma_long !! 0%nat = Some (Fin 0)
            ∧ crossover_sign ma_short ma_long !! 0%nat = Some 0%Z)
       ∧ (∀ i, (i < 20)%nat → (i < length rows)%nat →
            ma_short !! i = ma_long !! i
            ∧ crossover_sign ma_short ma_long !! i = Some 0%Z)
       ∧ (∀ i k, (i < 21)%nat → (k = 2 ∨ k = -2)%Z →
            eq_mask k (crossover_signal ma_short ma_long) !! i ≠ Some true)
       ∧ bullish `sublist_of` drop 21 (index df)
       ∧ bearish `sublist_of` drop 21 (index df))
  ∧ (∃ df, compute_indicators (price_frame rows_bump ∅) = Some df
           ∧ index df !! 21%nat = Some 21%Z
           ∧ find_crossovers df = Some ([], [21%Z])).
Proof.
  split.
  - intros rows others.
    destruct (indicator_frame_columns rows others) as (Hi & _ & H20 & H50 & _).
    eexists _, _, _, _, _.
    split; [apply compute_indicators_price|].
    split; [exact H20|]. split; [exact H50|].
    split; [exact (find_crossovers_masks _ _ _ H20 H50)|].
    split; [|split; [|split; [|split]]].
    + intros c Hc.
      pose proof (first_row_average 20 rows c ltac:(lia) Hc) as Hs.
      pose proof (first_row_average 50 rows c ltac:(lia) Hc) as Hl.
      split; [done|]. split; [done|]. split.
      * unfold series_sub. rewrite lookup_zip_with, Hs, Hl. simpl.
        do 2 f_equal. ring.
      * rewrite crossover_sign_lookup, Hs, Hl. simpl.
        f_equal. apply fsub_diag_sign.
    + intros i H20' Hlen. split; [|by apply sign_zero_first_rows].
      destruct (averages_agree rows i H20' Hlen) as (m & -> & ->). done.
    + intros i k Hi' Hk. by apply no_mark_first_rows.
    + rewrite (index_mask_drop 21 (index _) (eq_mask 2 _))
        by (intros; apply no_mark_first_rows; auto).
      apply index_mask_sublist.
    + rewrite (index_mask_drop 21 (index _) (eq_mask (-2) _))
        by (intros; apply no_mark_first_rows; auto).
      apply index_mask_sublist.
  - exists (indicator_frame rows_bump ∅).
    split; [apply compute_indicators_price|]. split; vm_compute; reflexivity.
Qed.

(** C10, as first stated, makes row 2 the earliest row that can be reported.
    No PriceSeries has a crossover at row 2. *)
Lemma C10_row_2_is_never_reported :
  ¬ ∃ (rows : list (Z * Qc)) (others : gmap string Series) df ma_short ma_long k,
      compute_indicators (price_frame rows others) = Some df
      ∧ getitem df "MA_20" = Some ma_short
      ∧ getitem df "MA_50" = Some ma_long
      ∧ (k = 2 ∨ k = -2)%Z
      ∧ eq_mask k (crossover_signal ma_short ma_long) !! 2%nat = Some true.
Proof.
  intros (rows & others & df & ms & ml & k & Hdf & Hs & Hl & Hk & Hmark).
  rewrite compute_indicators_price in Hdf. injection Hdf as <-.
  destruct (indicator_frame_columns rows others) as (_ & _ & H20 & H50 & _).
  rewrite H20 in Hs. rewrite H50 in Hl. injection Hs as <-. injection Hl as <-.
  by apply (no_mark_first_rows rows k 2) in Hmark; [|done|lia].
Qed.

(** C9. For the sixty closes [100 + i] every cell of MA_20 is at most the
    close of its row, and the detector reports no bearish crossover (nor a
    bullish one). *)
Theorem C9_increasing_closes (others : gmap string Series) :
  ∃ df ma_short,
    compute_indicators (price_frame rows_increasing others) = Some df
    ∧ getitem df "MA_20" = Some ma_short
    ∧ length ma_short = 60%nat
    ∧ length (rows_increasing.*2) = 60%nat
    ∧ (∀ i c, rows_increasing.*2 !! i = Some c →
              c = Qc_of_Z (100 + Z.of_nat i))
    ∧ (∀ i m c, ma_short !! i = Some m →
                rows_increasing.*2 !! i = Some c →
                fle m (Fin c) = true)
    ∧ find_crossovers df = Some ([], []).
Proof.
  destruct (indicator_frame_columns rows_increasing others)
    as (Hi & _ & H20 & H50 & _).
  eexists _, _.
  split; [apply compute_indicators_price|]. split; [exact H20|].
  split; [by rewrite rolling_mean_length|]. split; [done|].
  split; [|split].
  - intros i c.
    assert (E : rows_increasing.*2 =
                (λ j, Qc_of_Z (100 + Z.of_nat j)) <$> seq 0 60)
      by (unfold rows_increasing; by rewrite <- list_fmap_compose).
    rewrite E, list_lookup_fmap.
    intros [j [Hj ->]]%fmap_Some. by apply lookup_seq in Hj as [-> _].
  - apply all2_lookup. vm_compute. reflexivity.
  - rewrite (find_crossovers_masks _ _ _ H20 H50), Hi.
    vm_compute. reflexivity.
Qed.

(** ** The store *)

Lemma store_copy (h : list DataFrame) l df :
  h !! l = Some df → Store.copy l h = Some (length h, h ++ [df]).
Proof. intros H. unfold Store.copy. by rewrite H. Qed.

Lemma store_getitem_new (h : list DataFrame) df c s :
  getitem df c = Some s →
  Store.getitem (length h) c (h ++ [df]) = Some (s, h ++ [df]).
Proof.
  intros H. unfold Store.getitem, getitem in *.
  rewrite list_lookup_middle by done. simpl. by rewrite H.
Qed.

Lemma store_setitem_new (h : list DataFrame) df c s :
  Store.setitem (length h) c s (h ++ [df]) =
    Some (tt, h ++ [setitem df c s]).
Proof.
  unfold Store.setitem. rewrite list_lookup_middle by done. simpl.
  rewrite insert_app_r_alt by done. by rewrite Nat.sub_diag.
Qed.

(** C7. When compute_indicators returns, the frame it was given is the
    frame it was before the call, and so is every other frame of the store;
    the result is an object that did not exist before the call, different
    from the input, and holds the input's rows and columns with the three
    indicator columns added. *)
Theorem C7_input_frame_not_mutated
    (h : list DataFrame) (l : Store.loc) (df : DataFrame) (close : Series) :
  h !! l = Some df →
  getitem df "Close" = Some close →
  ∃ l' h' df',
    Store.compute_indicators l h = Some (l', h')
    ∧ h' !! l = Some df
    ∧ (∀ l0 df0, h !! l0 = Some df0 → h' !! l0 = Some df0)
    ∧ h !! l' = None
    ∧ l' ≠ l
    ∧ h' !! l' = Some df'
    ∧ compute_indicators df = Some df'
    ∧ h' = h ++ [df'].
Proof.
  intros Hl Hc.
  pose proof (compute_indicators_columns df close Hc) as Hpure.
  set (df1 := setitem df "MA_20" (rolling_mean 20 1 close)) in *.
  set (df2 := setitem df1 "MA_50" (rolling_mean 50 1 close)) in *.
  set (df3 := setitem df2 "Daily_Return" (pct_change close)) in *.
  assert (Hc1 : getitem df1 "Close" = Some close).
  { unfold getitem, df1, setitem in *. simpl.
    by rewrite lookup_insert_ne by done. }
  assert (Hc2 : getitem df2 "Close" = Some close).
  { unfold getitem, df2, setitem in *. simpl.
    by rewrite lookup_insert_ne by done. }
  exists (length h), (h ++ [df3]), df3.
  split; [|split; [|split; [|split; [|split; [|split; [|split]]]]]].
  - unfold Store.compute_indicators, Store.bind, Store.ret.
    rewrite (store_copy h l df Hl).
    rewrite (store_getitem_new h df "Close" close Hc).
    rewrite store_setitem_new. fold df1.
    rewrite (store_getitem_new h df1 "Close" close Hc1).
    rewrite store_setitem_new. fold df2.
    rewrite (store_getitem_new h df2 "Close" close Hc2).
    rewrite store_setitem_new. done.
  - by apply lookup_app_l_Some.
  - intros l0 df0. apply lookup_app_l_Some.
  - by apply lookup_ge_None_2.
  - apply lookup_lt_Some in Hl. lia.
  - by apply list_lookup_middle.
  - exact Hpure.
  - done.
Qed.

Lemma C7_witness :
  ∃ l' h' df',
    Store.compute_indicators 0%nat store_one = Some (l', h')
    ∧ h' !! 0%nat = Some frame_one_row
    ∧ (∀ l0 df0, store_one !! l0 = Some df0 → h' !! l0 = Some df0)
    ∧ store_one !! l' = None
    ∧ l' ≠ 0%nat
    ∧ h' !! l' = Some df'
    ∧ compute_indicators frame_one_row = Some df'
    ∧ h' = store_one ++ [df'].
Proof.
  apply (C7_input_frame_not_mutated store_one 0%nat frame_one_row
           (Fin <$> [Qc_of_Z 100])); reflexivity.
Defined.

(** ** The error path of main *)

Lemma contains_intro pre needle post : contains needle (pre +:+ needle +:+ post).
Proof. by exists pre, post. Qed.

Lemma download_failure_message yf_download ticker period :
  (∃ e, yf_download ticker period = Raised e)
  ∨ yf_download ticker period = Returned None
  ∨ (∃ df, yf_download ticker period = Returned (Some df) ∧ empty df = true) →
  ∃ e, download_data yf_download ticker period = inl e
       ∧ contains ticker (str e).
Proof.
  unfold download_data.
  intros [[e ->]|[->|(df & -> & ->)]]; eexists; (split; [done|]); simpl.
  - apply contains_intro.
  - apply contains_intro.
  - apply contains_intro.
Qed.

(** C4, as amended.  When the provider raises, returns nothing or returns
    an empty frame, the run ends with exit status 1 after writing one line,
    ["Error: "] followed by a message that holds the ticker symbol; the line
    is written with print, to standard output, after whatever the fetch
    wrote itself. *)
Theorem C4_failed_download_exits_with_status_1
    (parse_args : list string → parse_result)
    (yf_download : string → string → provider_result)
    (yf_output : string → string → list (stream * string))
    (argv : list string) (args : arguments) :
  parse_args argv = Parsed args →
  (∃ e, yf_download (ticker args) (period args) = Raised e)
  ∨ yf_download (ticker args) (period args) = Returned None
  ∨ (∃ df, yf_download (ticker args) (period args) = Returned (Some df)
           ∧ empty df = true) →
  ∃ msg,
    main parse_args yf_download yf_output argv =
      Exited 1 (yf_output (ticker args) (period args)
                ++ [(Stdout, "Error: " +:+ msg)])
    ∧ contains (ticker args) msg
    ∧ contains (ticker args) ("Error: " +:+ msg).
Proof.
  intros Hargs Hfail.
  destruct (download_failure_message yf_download (ticker args) (period args)
              Hfail) as (e & He & Hin).
  exists (str e). unfold main. rewrite Hargs, He.
  split; [done|]. split; [done|].
  destruct Hin as (pre & post & ->). by exists ("Error: " +:+ pre), post.
Qed.

Lemma C4_witness :
  ∃ msg,
    main parse_xyz provider_empty noisy ["XYZ"; "--no-show"] =
      Exited 1 (noisy "XYZ" "1y" ++ [(Stdout, "Error: " +:+ msg)])
    ∧ contains "XYZ" msg
    ∧ contains "XYZ" ("Error: " +:+ msg).
Proof.
  apply (C4_failed_download_exits_with_status_1 parse_xyz provider_empty noisy
           ["XYZ"; "--no-show"] args_xyz).
  - reflexivity.
  - right. right. exists (mkDataFrame [] ∅). split; reflexivity.
Defined.

(** C4, as first stated, puts the message on the diagnostic stream.  For a
    provider that returns an empty frame, and for one that raises, the run
    exits with status 1 and its message is on standard output: when the
    fetch writes nothing, no line at all is written to standard error. *)
Lemma C4_message_not_on_stderr :
  main parse_xyz provider_empty silent ["XYZ"; "--no-show"] =
    Exited 1 [(Stdout, "Error: No data found for ticker 'XYZ' with period='1y'.")]
  ∧ main parse_xyz provider_raising silent ["XYZ"; "--no-show"] =
    Exited 1 [(Stdout, "Error: Failed to download data for XYZ: connection refused")]
  ∧ ¬ (∃ written msg,
         main parse_xyz provider_empty silent ["XYZ"; "--no-show"]
           = Exited 1 written
         ∧ (Stderr, msg) ∈ written)
  ∧ ¬ (∃ written msg,
         main parse_xyz provider_raising silent ["XYZ"; "--no-show"]
           = Exited 1 written
         ∧ (Stderr, msg) ∈ written).
Proof.
  split; [reflexivity|]. split; [reflexivity|].
  split; intros (written & msg & Hrun & Hin);
    vm_compute in Hrun; injection Hrun as <-;
    apply list_elem_of_In in Hin; destruct Hin as [?|[]]; discriminate.
Qed.

(** * Further properties of the code *)

(** ** compute_indicators: the frame it returns *)

Lemma compute_indicators_none_iff (df : DataFrame) :
  compute_indicators df = None ↔ getitem df "Close" = None.
Proof.
  destruct (getitem df "Close") as [close|] eqn:E.
  - by rewrite (compute_indicators_columns df close E).
  - unfold compute_indicators, copy. by rewrite E.
Qed.

(** X1. compute_indicators raises exactly when the frame has no Close
    column; with one, none of its three lookups of Close fails. *)
Theorem compute_indicators_raises_iff_no_close (df : DataFrame) :
  (compute_indicators df = None ↔ getitem df "Close" = None)
  ∧ (is_Some (compute_indicators df) ↔ is_Some (getitem df "Close")).
Proof.
  pose proof (compute_indicators_none_iff df) as Hnone.
  split; [exact Hnone|].
  destruct (compute_indicators df) as [df'|] eqn:E1;
    destruct (getitem df "Close") as [close|] eqn:E2.
  - split; intros _; by eexists.
  - destruct Hnone as [_ Hnone]. by specialize (Hnone eq_refl).
  - destruct Hnone as [Hnone _]. by specialize (Hnone eq_refl).
  - split; by intros [? ?].
Qed.

Lemma setitem_aligned df c s :
  aligned df → length s = length (index df) → aligned (setitem df c s).
Proof.
  intros Ha Hs c' s'. unfold getitem, setitem. simpl.
  rewrite lookup_insert. case_decide as Hc.
  - by intros [= <-].
  - apply Ha.
Qed.

Lemma compute_indicators_some_frame (df df' : DataFrame) :
  compute_indicators df = Some df' →
  index df' = index df
  ∧ (∃ close,
       getitem df "Close" = Some close
       ∧ getitem df' "Close" = Some close
       ∧ getitem df' "MA_20" = Some (rolling_mean 20 1 close)
       ∧ getitem df' "MA_50" = Some (rolling_mean 50 1 close)
       ∧ getitem df' "Daily_Return" = Some (pct_change close))
  ∧ (aligned df → aligned df').
Proof.
  intros H.
  destruct (getitem df "Close") as [close|] eqn:E.
  2:{ apply compute_indicators_none_iff in E. congruence. }
  rewrite (compute_indicators_columns df close E) in H. injection H as <-.
  split; [done|]. split.
  - exists close. unfold getitem, setitem in *. simpl.
    split; [done|]. split; [|split; [|split]].
    + by rewrite !lookup_insert_ne by done.
    + rewrite !lookup_insert_ne by done. apply lookup_insert_eq.
    + rewrite lookup_insert_ne by done. apply lookup_insert_eq.
    + apply lookup_insert_eq.
  - intros Ha. pose proof (Ha "Close" close E) as Hlen.
    repeat apply setitem_aligned; try done.
    + by rewrite rolling_mean_length.
    + by rewrite rolling_mean_length.
    + by rewrite pct_change_length.
Qed.

(** X2. The frame compute_indicators returns has the index of its input and
    the input's cells in every column other than MA_20, MA_50 and
    Daily_Return; these three are set from Close, whatever they held before;
    and when every column of the input has one cell per row, so has every
    column of the result. *)
Theorem compute_indicators_frame (df df' : DataFrame) :
  compute_indicators df = Some df' →
  index df' = index df
  ∧ (∀ c, c ≠ "MA_20" → c ≠ "MA_50" → c ≠ "Daily_Return" →
          getitem df' c = getitem df c)
  ∧ (∃ close,
       getitem df "Close" = Some close
       ∧ getitem df' "Close" = Some close
       ∧ getitem df' "MA_20" = Some (rolling_mean 20 1 close)
       ∧ getitem df' "MA_50" = Some (rolling_mean 50 1 close)
       ∧ getitem df' "Daily_Return" = Some (pct_change close))
  ∧ (aligned df → aligned df').
Proof.
  intros H.
  destruct (compute_indicators_some_frame df df' H)
    as (Hi & (close & Hc & Hcols) & Ha).
  split; [exact Hi|]. split; [|split; [by exists close|exact Ha]].
  intros c H1 H2 H3.
  rewrite (compute_indicators_columns df close Hc) in H. injection H as <-.
  unfold getitem, setitem. simpl. by rewrite !lookup_insert_ne by done.
Qed.

Lemma compute_indicators_frame_witness :
  index (indicator_frame rows_bump ∅) = index (price_frame rows_bump ∅)
  ∧ (∀ c, c ≠ "MA_20" → c ≠ "MA_50" → c ≠ "Daily_Return" →
          getitem (indicator_frame rows_bump ∅) c =
            getitem (price_frame rows_bump ∅) c)
  ∧ (∃ close,
       getitem (price_frame rows_bump ∅) "Close" = Some close
       ∧ getitem (indicator_frame rows_bump ∅) "Close" = Some close
       ∧ getitem (indicator_frame rows_bump ∅) "MA_20" =
           Some (rolling_mean 20 1 close)
       ∧ getitem (indicator_frame rows_bump ∅) "MA_50" =
           Some (rolling_mean 50 1 close)
       ∧ getitem (indicator_frame rows_bump ∅) "Daily_Return" =
           Some (pct_change close))
  ∧ (aligned (price_frame rows_bump ∅) →
     aligned (indicator_frame rows_bump ∅)).
Proof.
  apply (compute_indicators_frame (price_frame rows_bump ∅)
           (indicator_frame rows_bump ∅)).
  vm_compute. reflexivity.
Defined.

(** Setting a column to the cells it already holds changes nothing. *)
Lemma setitem_same (df : DataFrame) c s :
  getitem df c = Some s → setitem df c s = df.
Proof.
  intros H. destruct df as [idx cols]. unfold setitem, getitem in *.
  simpl in *. f_equal. by apply insert_id.
Qed.

(** X3. compute_indicators is idempotent: run on its own result it returns
    that result again. *)
Theorem compute_indicators_idempotent (df df' : DataFrame) :
  compute_indicators df = Some df' →
  compute_indicators df' = Some df'.
Proof.
  intros H.
  destruct (compute_indicators_some_frame df df' H)
    as (_ & (close & _ & Hc' & H20 & H50 & Hr) & _).
  rewrite (compute_indicators_columns df' close Hc').
  rewrite (setitem_same df' "MA_20") by done.
  rewrite (setitem_same df' "MA_50") by done.
  by rewrite (setitem_same df' "Daily_Return") by done.
Qed.

Lemma compute_indicators_idempotent_witness :
  compute_indicators (indicator_frame rows_bump ∅) =
    Some (indicator_frame rows_bump ∅).
Proof.
  apply (compute_indicators_idempotent (price_frame rows_bump ∅)).
  vm_compute. reflexivity.
Defined.

(** ** Daily returns *)

Lemma pct_change_fin_lookup (close : list Qc) i :
  pct_change (Fin <$> close) !! i =
    match i with
    | O => (λ _, NaN) <$> close !! 0%nat
    | S j => c' ← close !! S j; c ← close !! j;
             Some (fsub (fdiv (Fin c') (Fin c)) (Fin 1))
    end.
Proof.
  unfold pct_change, ffill. rewrite ffill_from_fin.
  rewrite lookup_zip_with, shift_one_lookup, !list_lookup_fmap.
  destruct i as [|j].
  - by destruct (close !! 0%nat).
  - rewrite !list_lookup_fmap.
    by destruct (close !! S j), (close !! j).
Qed.

Lemma returns_cons (c0 c1 : Qc) (l : list Qc) :
  drop 1 (pct_change (Fin <$> c0 :: c1 :: l)) =
    fsub (fdiv (Fin c1) (Fin c0)) (Fin 1)
      :: drop 1 (pct_change (Fin <$> c1 :: l)).
Proof.
  apply list_eq. intros i. rewrite lookup_drop.
  destruct i as [|i].
  - change (1 + 0)%nat with 1%nat.
    by rewrite (pct_change_fin_lookup (c0 :: c1 :: l) 1).
  - change (1 + S i)%nat with (S (S i)).
    rewrite (pct_change_fin_lookup (c0 :: c1 :: l) (S (S i))).
    change ((?x :: ?k) !! S i) with (k !! i).
    rewrite lookup_drop. change (1 + i)%nat with (S i).
    by rewrite (pct_change_fin_lookup (c1 :: l) (S i)).
Qed.



(** ** find_crossovers: errors, meaning and symmetry *)

(** X7. find_crossovers raises exactly when the frame lacks MA_20 or MA_50
    (a frame as the provider returns it, say); it never raises on a frame
    that compute_indicators returned. *)
Theorem find_crossovers_raises_iff_no_average (df : DataFrame) :
  (find_crossovers df = None ↔
     getitem df "MA_20" = None ∨ getitem df "MA_50" = None)
  ∧ (∀ df0, compute_indicators df0 = Some df → is_Some (find_crossovers df)).
Proof.
  split.
  - unfold find_crossovers.
    destruct (getitem df "MA_20"), (getitem df "MA_50"); simpl;
      split; intros H; try done; try (by left); try (by right);
      by destruct H.
  - intros df0 H.
    destruct (compute_indicators_some_frame df0 df H)
      as (_ & (close & _ & _ & H20 & H50 & _) & _).
    rewrite (find_crossovers_masks df _ _ H20 H50). by eexists.
Qed.

Lemma Qc_compare_sub (a b : Qc) : (a - b ?= 0) = (a ?= b).
Proof.
  destruct (a ?= b) eqn:E.
  - apply Qceq_alt in E as ->. apply Qceq_alt. ring.
  - apply Qclt_alt. apply Qclt_alt in E.
    apply Qclt_minus_iff. apply Qclt_minus_iff in E.
    by replace (0 + - (a - b)) with (b + - a) by ring.
  - apply Qcgt_alt. apply Qcgt_alt in E.
    apply Qclt_minus_iff. apply Qclt_minus_iff in E.
    by replace (a - b + - 0) with (a + - b) by ring.
Qed.

(** The sign of a difference is the comparison of its operands. *)
Lemma sign_of_sub (x y : float64) :
  sign_of (fsub x y) =
    match fcmp x y with Some Gt => 1%Z | Some Lt => (-1)%Z | _ => 0%Z end.
Proof.
  destruct x as [a| | |], y as [b| | |]; try reflexivity.
  unfold sign_of, fgt, flt. simpl. rewrite Qc_compare_sub.
  by destruct (a ?= b).
Qed.

Lemma fcmp_antisym (x y : float64) : fcmp y x = CompOpp <$> fcmp x y.
Proof.
  destruct x as [a| | |], y as [b| | |]; try reflexivity.
  simpl. f_equal. unfold Qccompare. symmetry. apply Qcompare_antisym.
Qed.

(** X8. What a reported crossover means: a row is marked bullish exactly
    when MA_20 was strictly below MA_50 on the row before and is strictly
    above it on this row, and bearish exactly when it was strictly above and
    is strictly below; a row where either average is NaN, or where the two
    are equal, is no side of a crossover. *)
Theorem crossover_is_a_strict_change_of_order (ma_short ma_long : Series) i :
  (eq_mask 2 (crossover_signal ma_short ma_long) !! i = Some true ↔
     ∃ j x y x' y',
       i = S j
       ∧ ma_short !! j = Some x' ∧ ma_long !! j = Some y'
       ∧ ma_short !! i = Some x ∧ ma_long !! i = Some y
       ∧ flt x' y' = true ∧ fgt x y = true)
  ∧ (eq_mask (-2) (crossover_signal ma_short ma_long) !! i = Some true ↔
     ∃ j x y x' y',
       i = S j
       ∧ ma_short !! j = Some x' ∧ ma_long !! j = Some y'
       ∧ ma_short !! i = Some x ∧ ma_long !! i = Some y
       ∧ fgt x' y' = true ∧ flt x y = true).
Proof.
  rewrite !eq_mask_lookup. unfold crossover_signal.
  destruct i as [|j].
  { rewrite series_diff_lookup_O.
    destruct (crossover_sign ma_short ma_long !! 0%nat); simpl;
      split; split; intros H; try done;
      by destruct H as (? & ? & ? & ? & ? & ? & _). }
  rewrite series_diff_lookup_S, !crossover_sign_lookup.
  destruct (ma_short !! S j) as [x|] eqn:E1; simpl.
  2:{ split; split; intros H; try done;
      by destruct H as (? & ? & ? & ? & ? & _ & _ & _ & ? & _). }
  destruct (ma_long !! S j) as [y|] eqn:E2; simpl.
  2:{ split; split; intros H; try done;
      by destruct H as (? & ? & ? & ? & ? & _ & _ & _ & _ & ? & _). }
  destruct (ma_short !! j) as [x'|] eqn:E3; simpl.
  2:{ split; split; intros H; try done;
      destruct H as (? & ? & ? & ? & ? & [= <-] & ? & _); congruence. }
  destruct (ma_long !! j) as [y'|] eqn:E4; simpl.
  2:{ split; split; intros H; try done;
      destruct H as (? & ? & ? & ? & ? & [= <-] & _ & ? & _); congruence. }
  rewrite !sign_of_sub. unfold flt, fgt.
  split; (split;
    [ intros [= H];
      destruct (fcmp x y) as [[]|] eqn:F, (fcmp x' y') as [[]|] eqn:F';
      try (exfalso; lia);
      exists j, x, y, x', y'; by rewrite F, F'
    | intros (j0 & x0 & y0 & x0' & y0' & [= <-] & Hx' & Hy' & Hx & Hy & H1 & H2);
      rewrite E3 in Hx'; rewrite E4 in Hy'; simplify_eq;
      destruct (fcmp x0 y0) as [[]|], (fcmp x0' y0') as [[]|]; done ]).
Qed.

Lemma sign_of_swap (x y : float64) :
  sign_of (fsub y x) = (- sign_of (fsub x y))%Z.
Proof.
  rewrite !sign_of_sub, fcmp_antisym. by destruct (fcmp x y) as [[]|].
Qed.

Lemma crossover_sign_swap (ms ml : Series) :
  crossover_sign ml ms = Z.opp <$> crossover_sign ms ml.
Proof.
  apply list_eq. intros i.
  rewrite list_lookup_fmap, !crossover_sign_lookup.
  destruct (ms !! i), (ml !! i); simpl; try done.
  by rewrite sign_of_swap.
Qed.

Lemma series_diff_opp (s : list Z) :
  series_diff (Z.opp <$> s) =
    (λ cell : option Z, Z.opp <$> cell) <$> series_diff s.
Proof.
  apply list_eq. intros [|j]; rewrite list_lookup_fmap.
  - rewrite !series_diff_lookup_O, list_lookup_fmap.
    by destruct (s !! 0%nat).
  - rewrite !series_diff_lookup_S, !list_lookup_fmap.
    destruct (s !! S j), (s !! j); simpl; try done.
    do 3 f_equal. lia.
Qed.

Lemma eq_mask_opp k (signal : list (option Z)) :
  eq_mask k ((λ cell : option Z, Z.opp <$> cell) <$> signal) =
    eq_mask (- k) signal.
Proof.
  unfold eq_mask. rewrite <- list_fmap_compose.
  apply list_fmap_ext. intros _ [d|] _; simpl; [|done].
  apply bool_decide_ext. lia.
Qed.

(** X9. Exchanging the two averages exchanges the two outputs: the bullish
    crossovers of one order are the bearish crossovers of the other. *)
Theorem swapped_averages_swap_the_outputs
    (df : DataFrame) (ma_short ma_long : Series) (bullish bearish : list Z) :
  getitem df "MA_20" = Some ma_short →
  getitem df "MA_50" = Some ma_long →
  find_crossovers df = Some (bullish, bearish) →
  find_crossovers (setitem (setitem df "MA_20" ma_long) "MA_50" ma_short) =
    Some (bearish, bullish).
Proof.
  intros Hs Hl Hf.
  rewrite (find_crossovers_masks df _ _ Hs Hl) in Hf. injection Hf as <- <-.
  rewrite (find_crossovers_masks _ ma_long ma_short).
  - simpl. unfold crossover_signal.
    rewrite crossover_sign_swap, series_diff_opp, !eq_mask_opp. done.
  - unfold getitem, setitem. simpl.
    rewrite lookup_insert_ne by done. apply lookup_insert_eq.
  - unfold getitem, setitem. simpl. apply lookup_insert_eq.
Qed.

Lemma swapped_averages_swap_the_outputs_witness :
  find_crossovers
    (setitem (setitem frame_five "MA_20" long_five) "MA_50" short_five) =
    Some ([14%Z], [12%Z]).
Proof.
  apply (swapped_averages_swap_the_outputs frame_five short_five long_five);
    vm_compute; reflexivity.
Defined.

(** X10. A series of at most 21 rows never produces a crossover: both
    outputs of find_crossovers are empty on the frame compute_indicators
    returns for it. *)
Theorem short_series_have_no_crossover
    (rows : list (Z * Qc)) (others : gmap string Series) :
  (length rows ≤ 21)%nat →
  ∃ df, compute_indicators (price_frame rows others) = Some df
        ∧ find_crossovers df = Some ([], []).
Proof.
  intros Hlen.
  destruct (indicator_frame_columns rows others) as (_ & _ & H20 & H50 & _).
  eexists. split; [apply compute_indicators_price|].
  rewrite (find_crossovers_masks _ _ _ H20 H50).
  assert (Hno : ∀ k, (k = 2 ∨ k = -2)%Z → ∀ i,
            eq_mask k (crossover_signal
                         (rolling_mean 20 1 (Fin <$> rows.*2))
                         (rolling_mean 50 1 (Fin <$> rows.*2))) !! i
              ≠ Some true).
  { intros k Hk i. destruct (decide (i < 21)%nat) as [Hi|Hi].
    - by apply no_mark_first_rows.
    - rewrite lookup_ge_None_2; [done|].
      rewrite eq_mask_length, crossover_signal_length,
        !rolling_mean_length, !length_fmap. lia. }
  by rewrite !index_mask_none by auto.
Qed.

Lemma short_series_have_no_crossover_witness :
  ∃ df, compute_indicators (price_frame rows_three ∅) = Some df
        ∧ find_crossovers df = Some ([], []).
Proof.
  apply (short_series_have_no_crossover rows_three ∅). simpl. lia.
Defined.

(** ** download_data and main *)

Lemma empty_false_iff (df : DataFrame) :
  empty df = false ↔
    (1 ≤ length (index df))%nat ∧ (1 ≤ size (columns df))%nat.
Proof.
  unfold empty. rewrite orb_false_iff, !bool_decide_eq_false. lia.
Qed.

Lemma download_data_inr
    (yf_download : string → string → provider_result)
    (ticker period : string) (df : DataFrame) :
  download_data yf_download ticker period = inr df →
  yf_download ticker period = Returned (Some df)
  ∧ (1 ≤ length (index df))%nat
  ∧ (1 ≤ size (columns df))%nat.
Proof.
  unfold download_data.
  destruct (yf_download ticker period) as [e|[df0|]]; try done.
  destruct (empty df0) eqn:E; [done|].
  intros [= ->]. split; [done|]. by apply empty_false_iff.
Qed.

(** X12. download_data returns a frame exactly when the provider returned
    that very frame and it has at least one row and one column: a frame it
    returns is never empty and never altered. *)
Theorem download_data_returns_the_non_empty_frame
    (yf_download : string → string → provider_result)
    (ticker period : string) (df : DataFrame) :
  download_data yf_download ticker period = inr df ↔
    yf_download ticker period = Returned (Some df)
    ∧ (1 ≤ length (index df))%nat
    ∧ (1 ≤ size (columns df))%nat.
Proof.
  split; [apply download_data_inr|].
  intros (Hret & Hrows & Hcols). unfold download_data. rewrite Hret.
  by rewrite (proj2 (empty_false_iff df)).
Qed.

Lemma string_app_assoc (s1 s2 s3 : string) :
  (s1 +:+ s2) +:+ s3 = s1 +:+ s2 +:+ s3.
Proof.
  induction s1 as [|a s1 IH]; [done|].
  change (String a ((s1 +:+ s2) +:+ s3) = String a (s1 +:+ s2 +:+ s3)).
  by rewrite IH.
Qed.

Lemma string_app_nil_r (s : string) : s +:+ "" = s.
Proof.
  induction s as [|a s IH]; [done|].
  change (String a (s +:+ "") = String a s). by rewrite IH.
Qed.

(** X13. How download_data fails: an exception of the fetch becomes a
    RuntimeError whose message holds the ticker and the text of the
    exception; a missing or empty result becomes a ValueError whose message
    holds the ticker and the period. *)
Theorem download_data_errors
    (yf_download : string → string → provider_result)
    (ticker period : string) :
  (∀ e, yf_download ticker period = Raised e →
        ∃ msg, download_data yf_download ticker period = inl (RuntimeError msg)
               ∧ contains ticker msg ∧ contains e msg)
  ∧ (yf_download ticker period = Returned None
     ∨ (∃ df, yf_download ticker period = Returned (Some df)
              ∧ empty df = true) →
     ∃ msg, download_data yf_download ticker period = inl (ValueError msg)
            ∧ contains ticker msg ∧ contains period msg).
Proof.
  unfold download_data. split.
  - intros e ->. eexists. split; [done|]. split.
    + apply contains_intro.
    + exists ("Failed to download data for " +:+ ticker +:+ ": "), "".
      by rewrite !string_app_assoc, string_app_nil_r.
  - intros [->|(df & -> & ->)]; (eexists; split; [done|]; split;
      [apply contains_intro|]);
      exists ("No data found for ticker '" +:+ ticker +:+ "' with period='"), "'.";
      by rewrite !string_app_assoc.
Qed.

(** X14. The ways main ends before the report.  It exits with status 0
    only when argparse printed the help (on standard output), with status 2
    only when argparse refused the command line (on standard error), and
    with status 1 only when download_data failed, after the fetch's own
    lines and the line that prints that failure; it ends in an uncaught
    exception only when the downloaded frame has no Close column; otherwise
    the reporting steps receive a frame with at least one row and the
    columns Close, MA_20, MA_50 and Daily_Return. *)
Theorem main_outcomes
    (parse_args : list string → parse_result)
    (yf_download : string → string → provider_result)
    (yf_output : string → string → list (stream * string))
    (argv : list string) :
  match main parse_args yf_download yf_output argv with
  | Exited status written =>
      (∃ text, parse_args argv = HelpExit text
               ∧ status = 0%Z ∧ written = [(Stdout, text)])
      ∨ (∃ text, parse_args argv = UsageExit text
                 ∧ status = 2%Z ∧ written = [(Stderr, text)])
      ∨ (∃ args e,
           parse_args argv = Parsed args
           ∧ status = 1%Z
           ∧ download_data yf_download (ticker args) (period args) = inl e
           ∧ written = yf_output (ticker args) (period args)
                       ++ [(Stdout, "Error: " +:+ str e)])
  | Uncaught =>
      ∃ args df,
        parse_args argv = Parsed args
        ∧ download_data yf_download (ticker args) (period args) = inr df
        ∧ getitem df "Close" = None
  | Reported df' =>
      ∃ args df,
        parse_args argv = Parsed args
        ∧ download_data yf_download (ticker args) (period args) = inr df
        ∧ compute_indicators df = Some df'
        ∧ (1 ≤ length (index df'))%nat
        ∧ is_Some (getitem df' "Close")
        ∧ is_Some (getitem df' "MA_20")
        ∧ is_Some (getitem df' "MA_50")
        ∧ is_Some (getitem df' "Daily_Return")
  end.
Proof.
  unfold main.
  destruct (parse_args argv) as [args|text|text] eqn:Hp.
  2:{ left. by exists text. }
  2:{ right. left. by exists text. }
  destruct (download_data yf_download (ticker args) (period args))
    as [e|df] eqn:Hd.
  - right. right. by exists args, e.
  - destruct (compute_indicators df) as [df'|] eqn:Hc.
    + exists args, df. split; [done|]. split; [done|]. split; [done|].
      destruct (compute_indicators_some_frame df df' Hc)
        as (Hi & (close & _ & H1 & H2 & H3 & H4) & _).
      apply download_data_inr in Hd as (_ & Hrows & _).
      rewrite Hi, H1, H2, H3, H4. split; [done|].
      repeat split; by eexists.
    + exists args, df. split; [done|]. split; [done|].
      by apply compute_indicators_none_iff.
Qed.

(** ** compute_indicators on the store *)

Lemma store_compute_indicators_columns (h : list DataFrame) l df close :
  h !! l = Some df →
  getitem df "Close" = Some close →
  Store.compute_indicators l h =
    Some (length h,
          h ++ [setitem (setitem (setitem df "MA_20" (rolling_mean 20 1 close))
                           "MA_50" (rolling_mean 50 1 close))
                  "Daily_Return" (pct_change close)]).
Proof.
  intros Hl Hc.
  set (df1 := setitem df "MA_20" (rolling_mean 20 1 close)).
  set (df2 := setitem df1 "MA_50" (rolling_mean 50 1 close)).
  assert (Hc1 : getitem df1 "Close" = Some close).
  { unfold getitem, df1, setitem in *. simpl.
    by rewrite lookup_insert_ne by done. }
  assert (Hc2 : getitem df2 "Close" = Some close).
  { unfold getitem, df2, setitem in *. simpl.
    by rewrite lookup_insert_ne by done. }
  unfold Store.compute_indicators, Store.bind, Store.ret.
  rewrite (store_copy h l df Hl).
  rewrite (store_getitem_new h df "Close" close Hc).
  rewrite store_setitem_new. fold df1.
  rewrite (store_getitem_new h df1 "Close" close Hc1).
  rewrite store_setitem_new. fold df2.
  rewrite (store_getitem_new h df2 "Close" close Hc2).
  by rewrite store_setitem_new.
Qed.

Lemma store_compute_indicators_some (h : list DataFrame) l df df' :
  h !! l = Some df →
  compute_indicators df = Some df' →
  Store.compute_indicators l h = Some (length h, h ++ [df']).
Proof.
  intros Hl Hc.
  destruct (getitem df "Close") as [close|] eqn:E.
  2:{ apply compute_indicators_none_iff in E. congruence. }
  rewrite (store_compute_indicators_columns h l df close Hl E).
  rewrite (compute_indicators_columns df close E) in Hc. by injection Hc as <-.
Qed.

(** X15. On the store compute_indicators computes what it computes on frame
    values: for a reference to a frame it raises when the value-level
    function raises (no Close column) and otherwise appends the value-level
    result to the store as a new object and returns its reference; a
    reference to no object raises. *)
Theorem store_compute_indicators_agrees_with_values
    (h : list DataFrame) (l : Store.loc) :
  Store.compute_indicators l h =
    match h !! l with
    | Some df =>
        match compute_indicators df with
        | Some df' => Some (length h, h ++ [df'])
        | None => None
        end
    | None => None
    end.
Proof.
  destruct (h !! l) as [df|] eqn:Hl.
  - destruct (compute_indicators df) as [df'|] eqn:Hc.
    + by apply store_compute_indicators_some with df.
    + apply compute_indicators_none_iff in Hc.
      unfold Store.compute_indicators, Store.bind.
      rewrite (store_copy h l df Hl). unfold Store.getitem.
      rewrite list_lookup_middle by done. simpl.
      unfold getitem in Hc. by rewrite Hc.
  - unfold Store.compute_indicators, Store.bind, Store.copy. by rewrite Hl.
Qed.

(** X16. Calling compute_indicators again on the frame it returned
    allocates one more object with the same content and changes neither the
    input nor the first result: the store grows by two equal frames, held
    by two different references. *)
Theorem store_compute_indicators_twice
    (h : list DataFrame) (l : Store.loc) (df df' : DataFrame) :
  h !! l = Some df →
  compute_indicators df = Some df' →
  ∃ l1 h1 l2 h2,
    Store.compute_indicators l h = Some (l1, h1)
    ∧ Store.compute_indicators l1 h1 = Some (l2, h2)
    ∧ l1 ≠ l ∧ l2 ≠ l ∧ l1 ≠ l2
    ∧ h2 = h ++ [df'; df']
    ∧ h2 !! l = Some df
    ∧ h2 !! l1 = Some df'
    ∧ h2 !! l2 = Some df'.
Proof.
  intros Hl Hc. pose proof (lookup_lt_Some _ _ _ Hl) as Hlt.
  exists (length h), (h ++ [df']), (S (length h)), (h ++ [df'; df']).
  split; [|split].
  - by apply store_compute_indicators_some with df.
  - assert (Hagain : compute_indicators df' = Some df').
    { destruct (compute_indicators_some_frame df df' Hc)
        as (_ & (close & _ & Hc' & H20 & H50 & Hr) & _).
      rewrite (compute_indicators_columns df' close Hc').
      rewrite (setitem_same df' "MA_20") by done.
      rewrite (setitem_same df' "MA_50") by done.
      by rewrite (setitem_same df' "Daily_Return") by done. }
    rewrite (store_compute_indicators_some (h ++ [df']) (length h) df' df')
      by (by rewrite ?list_lookup_middle).
    rewrite length_app. simpl. rewrite Nat.add_1_r.
    by rewrite <- app_assoc.
  - split; [lia|]. split; [lia|]. split; [lia|]. split; [done|].
    split; [by apply lookup_app_l_Some|]. split.
    + by apply list_lookup_middle.
    + change (h ++ [df'; df']) with (h ++ [df'] ++ [df']).
      rewrite app_assoc. apply list_lookup_middle.
      rewrite length_app. simpl. lia.
Qed.

Lemma store_compute_indicators_twice_witness :
  ∃ l1 h1 l2 h2,
    Store.compute_indicators 0%nat store_one = Some (l1, h1)
    ∧ Store.compute_indicators l1 h1 = Some (l2, h2)
    ∧ l1 ≠ 0%nat ∧ l2 ≠ 0%nat ∧ l1 ≠ l2
    ∧ h2 = store_one ++ [indicator_frame [(1%Z, Qc_of_Z 100)] ∅;
                         indicator_frame [(1%Z, Qc_of_Z 100)] ∅]
    ∧ h2 !! 0%nat = Some frame_one_row
    ∧ h2 !! l1 = Some (indicator_frame [(1%Z, Qc_of_Z 100)] ∅)
    ∧ h2 !! l2 = Some (indicator_frame [(1%Z, Qc_of_Z 100)] ∅).
Proof.
  apply (store_compute_indicators_twice store_one 0%nat frame_one_row
           (indicator_frame [(1%Z, Qc_of_Z 100)] ∅)).
  - reflexivity.
  - vm_compute. reflexivity.
Defined.

(** ** print_summary *)

Lemma last_cell {A} (l : list A) n :
  length l = S n → last l = l !! n.
Proof. intros H. by rewrite last_lookup, H. Qed.

Lemma iloc_last_rows (df : DataFrame) :
  (1 ≤ length (index df))%nat →
  iloc_last df = Some (λ c, s ← getitem df c; last s).
Proof.
  intros H. unfold iloc_last. by rewrite bool_decide_eq_false_2 by lia.
Qed.

(** X17. On the frame compute_indicators returns for a frame with at least
    one row and one cell per row in every column, print_summary runs to its
    end and reports, in this order: the ticker with the first and the last
    timestamp, the last cell of Close, the last cell of MA_20, the last cell
    of MA_50, the whole Close column for the statistics, the last five
    returns that are not NaN, rounded, and the deviation of the returns that
    are not NaN. *)
Theorem print_summary_of_a_price_series
    (round4 : float64 → float64) (std_ddof1 : list float64 → float64)
    (df df' : DataFrame) (ticker : string) :
  compute_indicators df = Some df' →
  aligned df →
  (1 ≤ length (index df))%nat →
  ∃ t0 tn close ma_short ma_long daily_return c m m',
    head (index df) = Some t0
    ∧ last (index df) = Some tn
    ∧ getitem df "Close" = Some close
    ∧ getitem df' "MA_20" = Some ma_short
    ∧ getitem df' "MA_50" = Some ma_long
    ∧ getitem df' "Daily_Return" = Some daily_return
    ∧ last close = Some c
    ∧ last ma_short = Some m
    ∧ last ma_long = Some m'
    ∧ print_summary round4 std_ddof1 df' ticker =
        ([ SummaryTitle ticker t0 tn;
           LastClose c;
           LastShortMA m;
           LastLongMA m';
           PrintLine (newline +:+ "Basic statistics for Close:");
           CloseStatistics close;
           PrintLine (newline +:+ "Daily return (last 5):");
           LastReturns (round4 <$> tail 5 (dropna daily_return));
           AnnualizedVolatility (std_ddof1 (dropna daily_return)) ],
         true).
Proof.
  intros Hdf Ha Hrows.
  destruct (compute_indicators_some_frame df df' Hdf)
    as (Hi & (close & Hc & Hc' & H20 & H50 & Hr) & Ha').
  specialize (Ha' Ha).
  assert (Hlast : ∀ col s, getitem df' col = Some s → is_Some (last s)).
  { intros col s Hs. rewrite last_lookup. apply lookup_lt_is_Some_2.
    rewrite (Ha' col s Hs), Hi. lia. }
  destruct (Hlast _ _ Hc') as [c Ec].
  destruct (Hlast _ _ H20) as [m Em].
  destruct (Hlast _ _ H50) as [m' Em'].
  destruct (index df) as [|t0 idx] eqn:Eidx; [simpl in Hrows; lia|].
  destruct (last (t0 :: idx)) as [tn|] eqn:En.
  2:{ rewrite last_lookup in En. apply lookup_ge_None in En. simpl in En. lia. }
  eexists t0, tn, close, _, _, _, c, m, m'.
  do 2 (split; [done|]). split; [exact Hc|].
  split; [exact H20|]. split; [exact H50|]. split; [exact Hr|].
  do 3 (split; [done|]).
  unfold print_summary, iloc_last.
  rewrite Hi. rewrite bool_decide_eq_false_2 by done.
  cbn [need head]. rewrite En. cbn [need].
  rewrite Hc', H20, H50. cbn [mbind option_bind].
  rewrite Ec, Em, Em'. cbn [need].
  unfold summary_last_returns, summary_return_std. rewrite Hr.
  reflexivity.
Qed.

Lemma print_summary_of_a_price_series_witness :
  ∃ t0 tn close ma_short ma_long daily_return c m m',
    head (index (price_frame rows_three ∅)) = Some t0
    ∧ last (index (price_frame rows_three ∅)) = Some tn
    ∧ getitem (price_frame rows_three ∅) "Close" = Some close
    ∧ getitem (indicator_frame rows_three ∅) "MA_20" = Some ma_short
    ∧ getitem (indicator_frame rows_three ∅) "MA_50" = Some ma_long
    ∧ getitem (indicator_frame rows_three ∅) "Daily_Return" = Some daily_return
    ∧ last close = Some c
    ∧ last ma_short = Some m
    ∧ last ma_long = Some m'
    ∧ print_summary (λ x, x) (λ _, NaN) (indicator_frame rows_three ∅) "XYZ" =
        ([ SummaryTitle "XYZ" t0 tn;
           LastClose c;
           LastShortMA m;
           LastLongMA m';
           PrintLine (newline +:+ "Basic statistics for Close:");
           CloseStatistics close;
           PrintLine (newline +:+ "Daily return (last 5):");
           LastReturns ((λ x, x) <$> tail 5 (dropna daily_return));
           AnnualizedVolatility NaN ],
         true).
Proof.
  apply (print_summary_of_a_price_series (λ x, x) (λ _, NaN)
           (price_frame rows_three ∅) (indicator_frame rows_three ∅) "XYZ").
  - apply compute_indicators_price.
  - intros c s. unfold getitem, price_frame. simpl.
    rewrite lookup_insert. case_decide; [|by rewrite lookup_empty].
    by intros [= <-].
  - simpl. lia.
Defined.

(** X18. How print_summary fails: on a frame without rows it raises at
    once (the IndexError of [df.iloc[-1]]) and prints nothing; on a frame
    with rows that did not go through compute_indicators (no MA_20 column)
    it prints the title and the last close and then raises. *)
Theorem print_summary_errors
    (round4 : float64 → float64) (std_ddof1 : list float64 → float64)
    (ticker : string) :
  (∀ df, index df = [] →
         print_summary round4 std_ddof1 df ticker = ([], false))
  ∧ (∀ (rows : list (Z * Qc)) (others : gmap string Series) t0 c0 tn cn,
       head rows = Some (t0, c0) →
       last rows = Some (tn, cn) →
       others !! "MA_20" = None →
       print_summary round4 std_ddof1 (price_frame rows others) ticker =
         ([SummaryTitle ticker t0 tn; LastClose (Fin cn)], false)).
Proof.
  split.
  - intros df H. unfold print_summary, iloc_last. by rewrite H.
  - intros rows others t0 c0 tn cn Hhead Hlast Hno.
    unfold print_summary.
    rewrite iloc_last_rows
      by (destruct rows; [done|]; simpl; lia).
    assert (E0 : head (rows.*1) = Some t0)
      by (destruct rows as [|[] ?]; simpl in *; congruence).
    assert (En : last (rows.*1) = Some tn) by (by rewrite fmap_last, Hlast).
    assert (Ec : last (Fin <$> rows.*2) = Some (Fin cn))
      by (by rewrite !fmap_last, Hlast).
    unfold price_frame, getitem. simpl. rewrite E0, En. simpl.
    rewrite lookup_insert_eq. simpl. rewrite Ec. simpl.
    rewrite lookup_insert_ne by done. by rewrite Hno.
Qed.

(** X19. The summary shows at most five returns and never the first cell:
    for N rows at most [N - 1], so none for a single row; when no close is
    zero it shows exactly [min 5 (N - 1)]. *)
Theorem summary_shows_the_last_five_returns
    (round4 : float64 → float64)
    (rows : list (Z * Qc)) (others : gmap string Series) :
  ∃ df shown,
    compute_indicators (price_frame rows others) = Some df
    ∧ summary_last_returns round4 df = Some shown
    ∧ (length shown ≤ 5)%nat
    ∧ (length shown ≤ length rows - 1)%nat
    ∧ (Forall (λ c, c ≠ 0) (rows.*2) →
       length shown = (5 `min` (length rows - 1))%nat).
Proof.
  destruct (indicator_frame_columns rows others) as (_ & _ & _ & _ & Hr).
  eexists _, _. split; [apply compute_indicators_price|].
  split; [unfold summary_last_returns; by rewrite Hr|].
  set (dr := pct_change (Fin <$> rows.*2)).
  assert (Hlen : length dr = length rows)
    by (unfold dr; by rewrite pct_change_length, !length_fmap).
  assert (Hdrop : dropna dr = dropna (drop 1 dr)).
  { unfold dr. destruct (rows.*2) as [|c0 rest] eqn:E; [done|].
    apply dropna_first_nan. by apply (pct_change_fin_first _ c0). }
  assert (Hle : (length (dropna dr) ≤ length rows - 1)%nat).
  { rewrite Hdrop. unfold dropna.
    etrans; [apply length_filter|]. rewrite length_drop. lia. }
  rewrite length_fmap. unfold tail. rewrite length_drop.
  split; [lia|]. split; [lia|].
  intros Hnz.
  assert (Hall : dropna (drop 1 dr) = drop 1 dr).
  { unfold dr. destruct (rows.*2) as [|c0 rest] eqn:E; [done|].
    clear -Hnz. revert c0 Hnz.
    induction rest as [|c1 rest IH]; intros c0 Hnz; [done|].
    apply Forall_cons in Hnz as [H0 Hnz].
    rewrite returns_cons. unfold fdiv. rewrite decide_False by done.
    unfold dropna in *. cbn [fsub]. rewrite filter_cons_True by done.
    f_equal. by apply IH. }
  rewrite Hdrop, Hall, length_drop. lia.
Qed.

(** ** plot_data *)

Lemma rows_with_absent (idx : list Z) (s : Series) t :
  t ∉ idx → rows_with idx s t = [].
Proof.
  revert s. induction idx as [|t0 idx IH]; intros s Hnot; [done|].
  destruct s as [|c0 s]; [done|].
  apply not_elem_of_cons in Hnot as [Hne Hnot].
  unfold rows_with in *. cbn [zip zip_with].
  rewrite filter_cons_False by (simpl; congruence). by apply IH.
Qed.

Lemma rows_with_at (idx : list Z) (s : Series) t i c :
  NoDup idx →
  idx !! i = Some t →
  s !! i = Some c →
  rows_with idx s t = [c].
Proof.
  revert s i. induction idx as [|t0 idx IH]; intros s i Hnd Hi Hs; [done|].
  destruct s as [|c0 s]; [done|].
  apply NoDup_cons in Hnd as [Hnot Hnd].
  unfold rows_with in *. cbn [zip zip_with].
  destruct i as [|i]; simpl in Hi, Hs.
  - injection Hi as ->. injection Hs as ->.
    rewrite filter_cons_True by done. cbn [fmap list_fmap snd].
    f_equal. by apply (rows_with_absent idx s t).
  - rewrite filter_cons_False.
    + by apply (IH s i).
    + simpl. intros ->. apply Hnot. by eapply list_elem_of_lookup_2.
Qed.

Lemma concat_singletons {A} (y : list A) : concat ((λ c, [c]) <$> y) = y.
Proof. induction y as [|c y IH]; [done|]. simpl. f_equal. exact IH. Qed.

Lemma df_loc_unique (df : DataFrame) (close : Series) (labels : list Z) :
  getitem df "Close" = Some close →
  NoDup (index df) →
  length close = length (index df) →
  (∀ t, t ∈ labels → t ∈ index df) →
  ∃ y, df_loc df labels "Close" = Some y
       ∧ Forall2 (λ t c, ∃ i, index df !! i = Some t ∧ close !! i = Some c)
                 labels y.
Proof.
  intros Hc Hnd Hlen Hin. unfold df_loc. rewrite Hc. simpl.
  assert (H : ∃ y,
    mapM (λ t, match rows_with (index df) close t with
               | [] => None
               | r => Some r
               end) labels = Some ((λ c, [c]) <$> y)
    ∧ Forall2 (λ t c, ∃ i, index df !! i = Some t ∧ close !! i = Some c)
              labels y).
  { induction labels as [|t labels IH]; [by exists []|].
    destruct IH as (y & Hm & Hy); [intros; apply Hin; by right|].
    destruct (proj1 (list_elem_of_lookup _ _) (Hin t ltac:(by left)))
      as [i Hi].
    destruct (lookup_lt_is_Some_2 close i) as [c Hci].
    { rewrite Hlen. by eapply lookup_lt_Some. }
    exists (c :: y). split.
    - cbn [mapM]. rewrite (rows_with_at _ _ t i c Hnd Hi Hci). simpl.
      by rewrite Hm.
    - constructor; [by exists i|done]. }
  destruct H as (y & -> & Hy). exists y. simpl.
  by rewrite concat_singletons.
Qed.

Lemma plot_markers_marks (df : DataFrame) (close : Series) label crosses :
  getitem df "Close" = Some close →
  NoDup (index df) →
  length close = length (index df) →
  crosses `sublist_of` index df →
  ∃ drawn, plot_markers df label crosses = (drawn, true)
           ∧ marks df close label crosses drawn.
Proof.
  intros Hc Hnd Hlen Hsub.
  destruct crosses as [|t crosses]; [by exists []|].
  set (all := t :: crosses) in *.
  assert (Hsuf : tail 3 all `suffix_of` all) by apply suffix_drop.
  destruct (df_loc_unique df close (tail 3 all) Hc Hnd Hlen) as (y & Hy & Hrel).
  { intros t' Ht'. eapply elem_of_sublist; [|exact Hsub].
    eapply elem_of_sublist; [exact Ht'|]. apply sublist_drop. }
  exists [Scatter label (tail 3 all) y].
  assert (Hsize : (1 ≤ length (tail 3 all) ≤ 3)%nat).
  { unfold tail. rewrite length_drop. unfold all. simpl. lia. }
  split.
  - unfold plot_markers. fold all.
    change (match all with [] => finished | _ => ?k end) with k.
    rewrite Hy. simpl. unfold scatter.
    by rewrite bool_decide_eq_true_2 by (by eapply Forall2_length).
  - unfold marks. fold all.
    change (match all with [] => ?a | _ => ?k end) with k.
    by exists y.
Qed.

Lemma crossovers_in_index (df : DataFrame) bullish bearish :
  find_crossovers df = Some (bullish, bearish) →
  bullish `sublist_of` index df ∧ bearish `sublist_of` index df.
Proof.
  unfold find_crossovers.
  destruct (getitem df "MA_20"); simpl; [|done].
  destruct (getitem df "MA_50"); simpl; [|done].
  intros [= <- <-]. split; apply index_mask_sublist.
Qed.

(** plot_data once the style is known to be there and the two runs of
    markers are known to complete. *)
Lemma plot_data_with_markers
    (style_available : string → bool)
    (df : DataFrame) (ticker : string) (save_fig : option string) (show : bool)
    (close ma_short ma_long : Series) (bullish bearish : list Z)
    (up down : list effect) :
  style_available "seaborn-darkgrid" = true →
  getitem df "Close" = Some close →
  getitem df "MA_20" = Some ma_short →
  getitem df "MA_50" = Some ma_long →
  find_crossovers df = Some (bullish, bearish) →
  plot_markers df "Bullish Cross" bullish = (up, true) →
  plot_markers df "Bearish Cross" bearish = (down, true) →
  plot_data style_available df ticker save_fig show =
    ([ UseStyle "seaborn-darkgrid";
       PlotLine "Close Price" (index df) close;
       PlotLine "20-day MA" (index df) ma_short;
       PlotLine "50-day MA" (index df) ma_long ]
     ++ up ++ down
     ++ [SetTitle (ticker +:+ " — Close Price with 20/50-day MA")]
     ++ saved (λ path, [Savefig path;
                        PrintLine ("Saved figure to " +:+ path)]) save_fig
     ++ [if show then Show else CloseFigure],
     true).
Proof.
  intros Hstyle Hc Hs Hl Hf Hup Hdown.
  unfold plot_data, style_use. rewrite Hstyle, Hc, Hs, Hl, Hf. cbn [need].
  rewrite Hup, Hdown. unfold saved.
  destruct (truthy save_fig), show; reflexivity.
Qed.

(** Without the style plot_data raises before it draws anything. *)
Lemma plot_data_without_style
    (style_available : string → bool)
    (df : DataFrame) (ticker : string) (save_fig : option string) (show : bool) :
  style_available "seaborn-darkgrid" = false →
  plot_data style_available df ticker save_fig show = ([], false).
Proof. intros H. unfold plot_data, style_use. by rewrite H. Qed.

(** X20. What plot_data draws.  It first selects the style
    ['seaborn-darkgrid'], and raises there, before anything is drawn, when
    the installed matplotlib has no style of that name.  When it has, on a
    frame with strictly increasing timestamps and a Close cell per row
    plot_data runs to its end and draws, in this order: the three lines over
    the index; for the bullish and then for the bearish crossovers nothing
    when there is none, else one scatter of the last crossovers, at most
    three, each over the close of its own row; the title with the ticker;
    the saved figure and its message when a non-empty path was given, and
    nothing of it otherwise; and last either the interactive display or the
    closing of the figure, never both.  Writing the file and the display are
    taken to succeed. *)
Theorem plot_data_effects
    (style_available : string → bool)
    (df : DataFrame) (ticker : string) (save_fig : option string) (show : bool)
    (close ma_short ma_long : Series) (bullish bearish : list Z) :
  chronological (index df) →
  getitem df "Close" = Some close →
  length close = length (index df) →
  getitem df "MA_20" = Some ma_short →
  getitem df "MA_50" = Some ma_long →
  find_crossovers df = Some (bullish, bearish) →
  (style_available "seaborn-darkgrid" = false →
   plot_data style_available df ticker save_fig show = ([], false))
  ∧ (style_available "seaborn-darkgrid" = true →
     ∃ up down,
       marks df close "Bullish Cross" bullish up
       ∧ marks df close "Bearish Cross" bearish down
       ∧ plot_data style_available df ticker save_fig show =
           ([ UseStyle "seaborn-darkgrid";
              PlotLine "Close Price" (index df) close;
              PlotLine "20-day MA" (index df) ma_short;
              PlotLine "50-day MA" (index df) ma_long ]
            ++ up ++ down
            ++ [SetTitle (ticker +:+ " — Close Price with 20/50-day MA")]
            ++ saved (λ path, [Savefig path;
                               PrintLine ("Saved figure to " +:+ path)])
                 save_fig
            ++ [if show then Show else CloseFigure],
            true)).
Proof.
  intros Hidx Hc Hlen Hs Hl Hf.
  split; [apply plot_data_without_style|]. intros Hstyle.
  pose proof (chronological_NoDup _ Hidx) as Hnd.
  destruct (crossovers_in_index df bullish bearish Hf) as [Hb Hr].
  destruct (plot_markers_marks df close "Bullish Cross" bullish Hc Hnd Hlen Hb)
    as (up & Hup & Mup).
  destruct (plot_markers_marks df close "Bearish Cross" bearish Hc Hnd Hlen Hr)
    as (down & Hdown & Mdown).
  exists up, down. split; [done|]. split; [done|].
  by apply (plot_data_with_markers style_available df ticker save_fig show
              close ma_short ma_long bullish bearish up down).
Qed.

Lemma plot_data_effects_witness :
  ((λ _, true) "seaborn-darkgrid" = false →
   plot_data (λ _, true) frame_five_priced "XYZ" None false = ([], false))
  ∧ ((λ _, true) "seaborn-darkgrid" = true →
     ∃ up down,
       marks frame_five_priced short_five "Bullish Cross" [12%Z] up
       ∧ marks frame_five_priced short_five "Bearish Cross" [14%Z] down
       ∧ plot_data (λ _, true) frame_five_priced "XYZ" None false =
           ([ UseStyle "seaborn-darkgrid";
              PlotLine "Close Price" (index frame_five_priced) short_five;
              PlotLine "20-day MA" (index frame_five_priced) short_five;
              PlotLine "50-day MA" (index frame_five_priced) long_five ]
            ++ up ++ down
            ++ [SetTitle ("XYZ" +:+ " — Close Price with 20/50-day MA")]
            ++ saved (λ path, [Savefig path;
                               PrintLine ("Saved figure to " +:+ path)]) None
            ++ [CloseFigure],
            true)).
Proof.
  apply (plot_data_effects (λ _, true) frame_five_priced "XYZ"
           None false short_five short_five long_five [12%Z] [14%Z]).
  - unfold chronological. simpl.
    repeat (constructor; [|repeat constructor; lia]). constructor.
  - vm_compute. reflexivity.
  - reflexivity.
  - vm_compute. reflexivity.
  - vm_compute. reflexivity.
  - vm_compute. reflexivity.
Defined.

(** ** The end of main *)

Lemma last_is_Some {A} (l : list A) : (1 ≤ length l)%nat → is_Some (last l).
Proof.
  intros H. rewrite last_lookup. apply lookup_lt_is_Some_2. lia.
Qed.

Lemma print_summary_completes
    (round4 : float64 → float64) (std_ddof1 : list float64 → float64)
    (df : DataFrame) (ticker : string) :
  aligned df →
  (1 ≤ length (index df))%nat →
  is_Some (getitem df "Close") →
  is_Some (getitem df "MA_20") →
  is_Some (getitem df "MA_50") →
  is_Some (getitem df "Daily_Return") →
  ∃ printed, print_summary round4 std_ddof1 df ticker = (printed, true).
Proof.
  intros Ha Hrows [close Hc] [ms Hs] [ml Hl] [dr Hr].
  unfold print_summary. rewrite iloc_last_rows by done.
  cbn [need]. cbv beta.
  unfold summary_last_returns, summary_return_std.
  rewrite Hc, Hs, Hl, Hr.
  destruct (last_is_Some (index df) Hrows) as [tn ->].
  assert (Hhead : is_Some (head (index df)))
    by (destruct (index df); [simpl in Hrows; lia|by eexists]).
  destruct Hhead as [t0 ->].
  destruct (last_is_Some close) as [c Ec]; [by rewrite (Ha _ _ Hc)|].
  destruct (last_is_Some ms) as [m Es]; [by rewrite (Ha _ _ Hs)|].
  destruct (last_is_Some ml) as [m' El]; [by rewrite (Ha _ _ Hl)|].
  simpl. rewrite Ec, Es, El. by eexists.
Qed.

(** X21. The end of main.  When main hands a frame to the reporting steps,
    and the frame of the provider had one cell per row in every column and
    strictly increasing timestamps, then print_summary runs to its end and,
    exactly when a non-empty CSV path was given, the indicator frame is
    written to that path and the message about it is printed.  plot_data
    comes last: when the installed matplotlib has the style
    ['seaborn-darkgrid'] it runs to its end too, and no operation on the
    frame raises; when it has not, the run ends there with the exception of
    [plt.style.use], after the summary and the CSV.  Writing the files and
    the display are taken to succeed. *)
Theorem report_runs_to_its_end
    (round4 : float64 → float64) (std_ddof1 : list float64 → float64)
    (style_available : string → bool)
    (parse_args : list string → parse_result)
    (yf_download : string → string → provider_result)
    (yf_output : string → string → list (stream * string))
    (argv : list string) (args : arguments) (df' : DataFrame) :
  parse_args argv = Parsed args →
  (∀ df, yf_download (ticker args) (period args) = Returned (Some df) →
         aligned df ∧ chronological (index df)) →
  main parse_args yf_download yf_output argv = Reported df' →
  ∃ printed,
    print_summary round4 std_ddof1 df' (ticker args) = (printed, true)
    ∧ (style_available "seaborn-darkgrid" = true →
       ∃ drawn,
         plot_data style_available df' (ticker args) (save_fig args)
           (negb (no_show args)) = (drawn, true)
         ∧ report round4 std_ddof1 style_available df' (ticker args)
             (save_csv args) (save_fig args) (no_show args) =
             (printed
              ++ saved (λ path, [ToCsv path df';
                                 PrintLine ("Saved data to " +:+ path)])
                   (save_csv args)
              ++ drawn,
              true))
    ∧ (style_available "seaborn-darkgrid" = false →
       report round4 std_ddof1 style_available df' (ticker args)
         (save_csv args) (save_fig args) (no_show args) =
         (printed
          ++ saved (λ path, [ToCsv path df';
                             PrintLine ("Saved data to " +:+ path)])
               (save_csv args),
          false)).
Proof.
  intros Hargs Hprov Hmain. unfold main in Hmain. rewrite Hargs in Hmain.
  destruct (download_data yf_download (ticker args) (period args))
    as [e|df] eqn:Hd; [done|].
  destruct (compute_indicators df) as [df1|] eqn:Hc; [|done].
  injection Hmain as ->.
  apply download_data_inr in Hd as (Hret & Hrows & _).
  destruct (Hprov df Hret) as [Ha Hidx].
  destruct (compute_indicators_some_frame df df' Hc)
    as (Hi & (close & _ & H1 & H2 & H3 & H4) & Ha').
  specialize (Ha' Ha).
  destruct (print_summary_completes round4 std_ddof1 df' (ticker args))
    as [printed Hp]; try done; try (by eexists).
  { by rewrite Hi. }
  exists printed. split; [exact Hp|]. split.
  - intros Hstyle.
    destruct (find_crossovers df') as [[bullish bearish]|] eqn:Hf.
    2:{ rewrite (find_crossovers_masks df' _ _ H2 H3) in Hf. done. }
    assert (Hnd : NoDup (index df'))
      by (rewrite Hi; by apply chronological_NoDup).
    destruct (crossovers_in_index df' bullish bearish Hf) as [Hb Hr].
    destruct (plot_markers_marks df' close "Bullish Cross" bullish H1 Hnd
                (Ha' "Close" close H1) Hb) as (up & Hup & _).
    destruct (plot_markers_marks df' close "Bearish Cross" bearish H1 Hnd
                (Ha' "Close" close H1) Hr) as (down & Hdown & _).
    pose proof (plot_data_with_markers style_available df' (ticker args)
                  (save_fig args) (negb (no_show args))
                  close _ _ bullish bearish up down Hstyle H1 H2 H3 Hf
                  Hup Hdown) as Hplot.
    eexists. split; [exact Hplot|].
    unfold report. rewrite Hp, Hplot. unfold saved.
    by destruct (truthy (save_csv args)).
  - intros Hstyle. unfold report.
    rewrite Hp, (plot_data_without_style style_available) by done.
    unfold saved, and_then.
    destruct (truthy (save_csv args)); simpl; by rewrite ?app_nil_r.
Qed.

Lemma report_runs_to_its_end_witness :
  ∃ printed,
    print_summary (λ x, x) (λ _, NaN) (indicator_frame rows_bump ∅)
      (ticker args_xyz) = (printed, true)
    ∧ ((λ _, true) "seaborn-darkgrid" = true →
       ∃ drawn,
         plot_data (λ _, true) (indicator_frame rows_bump ∅) (ticker args_xyz)
           (save_fig args_xyz) (negb (no_show args_xyz)) = (drawn, true)
         ∧ report (λ x, x) (λ _, NaN) (λ _, true)
             (indicator_frame rows_bump ∅) (ticker args_xyz)
             (save_csv args_xyz) (save_fig args_xyz) (no_show args_xyz) =
             (printed
              ++ saved (λ path, [ToCsv path (indicator_frame rows_bump ∅);
                                 PrintLine ("Saved data to " +:+ path)])
                   (save_csv args_xyz)
              ++ drawn,
              true))
    ∧ ((λ _, true) "seaborn-darkgrid" = false →
       report (λ x, x) (λ _, NaN) (λ _, true)
         (indicator_frame rows_bump ∅) (ticker args_xyz)
         (save_csv args_xyz) (save_fig args_xyz) (no_show args_xyz) =
         (printed
          ++ saved (λ path, [ToCsv path (indicator_frame rows_bump ∅);
                             PrintLine ("Saved data to " +:+ path)])
               (save_csv args_xyz),
          false)).
Proof.
  apply (report_runs_to_its_end (λ x, x) (λ _, NaN) (λ _, true)
           parse_xyz provider_bump silent ["XYZ"; "--no-show"] args_xyz).
  - reflexivity.
  - intros df [= <-]. split.
    + intros c s. unfold getitem, price_frame. simpl.
      rewrite lookup_insert. case_decide; [|by rewrite lookup_empty].
      by intros [= <-].
    + unfold chronological. simpl.
      repeat (constructor; [|repeat constructor; lia]). constructor.
  - vm_compute. reflexivity.
Defined.

(** ** The detector in binary64

    What was shown of the detector on the frame of compute_indicators in
    exact arithmetic, in the arithmetic the program runs in. *)

Lemma cells_crossover_sign_lookup (R : Cells.Arithmetic)
    (ms ml : list (Cells.cell R)) i :
  Cells.crossover_sign R ms ml !! i =
    x ← ms !! i; y ← ml !! i; Some (Cells.sign_of R (Cells.sub R x y)).
Proof.
  unfold Cells.crossover_sign. rewrite list_lookup_fmap, lookup_zip_with.
  by destruct (ms !! i), (ml !! i).
Qed.

Lemma cells_find_crossovers_masks (R : Cells.Arithmetic)
    (df : Cells.DataFrame R) ms ml :
  Cells.getitem R df "MA_20" = Some ms →
  Cells.getitem R df "MA_50" = Some ml →
  Cells.find_crossovers R df =
    Some (index_mask (Cells.index R df)
            (eq_mask 2 (Cells.crossover_signal R ms ml)),
          index_mask (Cells.index R df)
            (eq_mask (-2) (Cells.crossover_signal R ms ml))).
Proof. intros H1 H2. unfold Cells.find_crossovers. by rewrite H1, H2. Qed.

Lemma cells_sign_of_range (R : Cells.Arithmetic) (x : Cells.cell R) :
  Cells.sign_of R x = 1%Z ∨ Cells.sign_of R x = (-1)%Z
  ∨ Cells.sign_of R x = 0%Z.
Proof.
  unfold Cells.sign_of.
  destruct (Cells.ltb R (Cells.zero R) x), (Cells.ltb R x (Cells.zero R));
    auto.
Qed.

(** The two windows hold the same rows below row 20, and the two running
    means are one computation there. *)
Lemma cells_averages_agree (R : Cells.Arithmetic) (s : list (Cells.cell R)) i :
  (i < 20)%nat →
  Cells.rolling_mean R 20 1 s !! i = Cells.rolling_mean R 50 1 s !! i.
Proof.
  intros H20. unfold Cells.rolling_mean.
  set (values := Cells.prep_values R s).
  destruct (decide (i < length values)%nat) as [Hi|Hi].
  - destruct (lookup_lt_is_Some_2 values 0) as [v0 Hv0]; [lia|].
    rewrite !cells_roll_mean_lookup by done.
    by rewrite !(cells_state_at_prefix R _ values i v0) by (lia || done).
  - unfold Cells.roll_mean.
    by rewrite !lookup_ge_None_2 by (rewrite cells_roll_rows_length; lia).
Qed.

(** The first cell of a running mean is the first close itself. *)
Lemma cells_first_cell (R : Cells.Arithmetic) (w : nat)
    (s : list (Cells.cell R)) (c : Cells.cell R) :
  (1 ≤ w)%nat →
  s !! 0%nat = Some c →
  Cells.finite R c →
  Cells.rolling_mean R w 1 s !! 0%nat = Some c.
Proof.
  intros Hw Hc [Heq Hinf]. unfold Cells.rolling_mean.
  assert (Hv : Cells.prep_values R s !! 0%nat = Some c).
  { unfold Cells.prep_values. rewrite list_lookup_fmap, Hc. simpl.
    by rewrite Hinf. }
  rewrite cells_roll_mean_lookup
    by (apply lookup_lt_is_Some_1; by eexists).
  rewrite (cells_state_at_first R w _ c Hw Hv).
  unfold Cells.calc_mean, Cells.add_mean. rewrite Heq.
  cbn [Cells.nobs Cells.num_consecutive_same_value Cells.prev_value
       Cells.fresh].
  rewrite Heq. by rewrite !bool_decide_eq_true_2 by lia.
Qed.

(** In binary64 a difference [x - x] is a zero or a NaN: its sign is 0. *)
Lemma b64_sub_diag_sign (x : b64) :
  Cells.sign_of binary64 (Cells.sub binary64 x x) = 0%Z.
Proof.
  unfold Cells.sign_of. cbn [Cells.sub Cells.ltb Cells.zero binary64].
  destruct x as [[]|[]| |s m e]; try reflexivity.
  unfold SpecFloat.SFsub. rewrite Z.sub_diag. reflexivity.
Qed.

Lemma b64_sign_zero_first_rows (s : list b64) i :
  (i < 20)%nat →
  (i < length s)%nat →
  Cells.crossover_sign binary64 (Cells.rolling_mean binary64 20 1 s)
    (Cells.rolling_mean binary64 50 1 s) !! i = Some 0%Z.
Proof.
  intros H20 Hi.
  rewrite cells_crossover_sign_lookup, (cells_averages_agree binary64 s i H20).
  destruct (lookup_lt_is_Some_2 (Cells.rolling_mean binary64 50 1 s) i)
    as [x ->]; [by rewrite cells_rolling_mean_length|].
  simpl. f_equal. apply b64_sub_diag_sign.
Qed.

Lemma b64_no_mark_first_rows (s : list b64) k i :
  (k = 2 ∨ k = -2)%Z →
  (i < 21)%nat →
  eq_mask k (Cells.crossover_signal binary64
               (Cells.rolling_mean binary64 20 1 s)
               (Cells.rolling_mean binary64 50 1 s)) !! i ≠ Some true.
Proof.
  intros Hk Hi. rewrite eq_mask_lookup. unfold Cells.crossover_signal.
  destruct i as [|j].
  { rewrite series_diff_lookup_O. by destruct (_ !! 0%nat). }
  rewrite series_diff_lookup_S.
  set (sign := Cells.crossover_sign _ _ _).
  destruct (sign !! S j) as [b|] eqn:Eb; simpl; [|done].
  assert (Hprev : sign !! j = None ∨ sign !! j = Some 0%Z).
  { subst sign. rewrite cells_crossover_sign_lookup.
    rewrite (cells_averages_agree binary64 s j) by lia.
    destruct (Cells.rolling_mean binary64 50 1 s !! j) as [x|]; simpl;
      [right|by left].
    f_equal. apply b64_sub_diag_sign. }
  destruct Hprev as [->| ->]; [done|]. simpl.
  assert (Hb : b = 1%Z ∨ b = (-1)%Z ∨ b = 0%Z).
  { subst sign. unfold Cells.crossover_sign in Eb.
    apply list_lookup_fmap_Some in Eb as (d & -> & _).
    apply cells_sign_of_range. }
  intros [= H']. lia.
Qed.

(** X22. The scenario of C9 in binary64: for the sixty closes [100 + i]
    every cell of MA_20 is at most the close of its row and the detector
    reports no crossover. *)
Theorem binary64_increasing_closes :
  ∃ df ma_short,
    Cells.compute_indicators binary64
      (Cells.price_frame binary64 prices_increasing ∅) = Some df
    ∧ Cells.getitem binary64 df "MA_20" = Some ma_short
    ∧ length ma_short = 60%nat
    ∧ prices_increasing.*2 = (λ i, b64_of_Z (100 + Z.of_nat i)) <$> seq 0 60
    ∧ all2 SpecFloat.SFleb ma_short (prices_increasing.*2) = true
    ∧ Cells.find_crossovers binary64 df = Some ([], []).
Proof.
  destruct (cells_compute_indicators_price binary64 prices_increasing ∅)
    as (df & Hdf & Hi & H20 & H50 & _).
  exists df, (Cells.rolling_mean binary64 20 1 (prices_increasing.*2)).
  split; [exact Hdf|]. split; [exact H20|].
  split; [by rewrite cells_rolling_mean_length|].
  split; [unfold prices_increasing; by rewrite <- list_fmap_compose|].
  split; [vm_compute; reflexivity|].
  rewrite (cells_find_crossovers_masks binary64 df _ _ H20 H50), Hi.
  vm_compute. reflexivity.
Qed.

(** X23. The content of C10 in binary64, for every series of closes (NaN
    and infinite closes included): the two averages are the same cell on
    every row below 20, so the sign is 0 there, no row below 21 is marked,
    and both outputs are taken from the index after its first 21
    timestamps; a first close that is a number is the first cell of both
    averages.  Row 21 is reached: for twenty-five closes of 100 with 110 at
    row 1 the detector reports a bearish crossover there. *)
Theorem binary64_earliest_crossover_row :
  (∀ (rows : list (Z * b64)) (others : gmap string (list b64)),
     ∃ df ma_short ma_long bullish bearish,
       Cells.compute_indicators binary64
         (Cells.price_frame binary64 rows others) = Some df
       ∧ Cells.getitem binary64 df "MA_20" = Some ma_short
       ∧ Cells.getitem binary64 df "MA_50" = Some ma_long
       ∧ Cells.find_crossovers binary64 df = Some (bullish, bearish)
       ∧ (∀ c, rows.*2 !! 0%nat = Some c → Cells.finite binary64 c →
            ma_short !! 0%nat = Some c ∧ ma_long !! 0%nat = Some c)
       ∧ (∀ i, (i < 20)%nat → (i < length rows)%nat →
            ma_short !! i = ma_long !! i
            ∧ Cells.crossover_sign binary64 ma_short ma_long !! i = Some 0%Z)
       ∧ (∀ i k, (i < 21)%nat → (k = 2 ∨ k = -2)%Z →
            eq_mask k (Cells.crossover_signal binary64 ma_short ma_long) !! i
              ≠ Some true)
       ∧ bullish `sublist_of` drop 21 (Cells.index binary64 df)
       ∧ bearish `sublist_of` drop 21 (Cells.index binary64 df))
  ∧ (∃ df, Cells.compute_indicators binary64
             (Cells.price_frame binary64 prices_bump ∅) = Some df
           ∧ Cells.index binary64 df !! 21%nat = Some 21%Z
           ∧ Cells.find_crossovers binary64 df = Some ([], [21%Z])).
Proof.
  split.
  - intros rows others.
    destruct (cells_compute_indicators_price binary64 rows others)
      as (df & Hdf & Hi & H20 & H50 & _).
    eexists df, _, _, _, _.
    split; [exact Hdf|]. split; [exact H20|]. split; [exact H50|].
    split; [exact (cells_find_crossovers_masks binary64 df _ _ H20 H50)|].
    split; [|split; [|split; [|split]]].
    + intros c Hc Hfin. split; by apply cells_first_cell; [lia|..].
    + intros i H20' Hlen.
      split; [by apply cells_averages_agree|].
      apply b64_sign_zero_first_rows; [done|]. by rewrite length_fmap.
    + intros i k Hi' Hk. by apply b64_no_mark_first_rows.
    + rewrite (index_mask_drop 21 (Cells.index binary64 df) (eq_mask 2 _))
        by (intros; apply b64_no_mark_first_rows; auto).
      apply index_mask_sublist.
    + rewrite (index_mask_drop 21 (Cells.index binary64 df) (eq_mask (-2) _))
        by (intros; apply b64_no_mark_first_rows; auto).
      apply index_mask_sublist.
  - destruct (cells_compute_indicators_price binary64 prices_bump ∅)
      as (df & Hdf & Hi & H20 & H50 & _).
    exists df. split; [exact Hdf|].
    rewrite (cells_find_crossovers_masks binary64 df _ _ H20 H50), Hi.
    split; vm_compute; reflexivity.
Qed.

(** X24. Rounding alone can make crossovers.  For thirty closes that
    alternate between 100.1 and 100.2 the detector, run in binary64,
    reports a bearish crossover at row 25 and a bullish one at row 26; run
    in exact arithmetic on the same prices it reports none. *)
Theorem rounding_makes_crossovers :
  (∃ df, Cells.compute_indicators binary64
           (Cells.price_frame binary64 prices_alternating ∅) = Some df
         ∧ Cells.find_crossovers binary64 df = Some ([26%Z], [25%Z]))
  ∧ (∃ df, compute_indicators (price_frame rows_alternating ∅) = Some df
           ∧ find_crossovers df = Some ([], [])).
Proof.
  split.
  - destruct (cells_compute_indicators_price binary64 prices_alternating ∅)
      as (df & Hdf & Hi & H20 & H50 & _).
    exists df. split; [exact Hdf|].
    rewrite (cells_find_crossovers_masks binary64 df _ _ H20 H50), Hi.
    vm_compute. reflexivity.
  - destruct (indicator_frame_columns rows_alternating ∅)
      as (Hi & _ & H20 & H50 & _).
    eexists. split; [apply compute_indicators_price|].
    rewrite (find_crossovers_masks _ _ _ H20 H50), Hi.
    vm_compute. reflexivity.
Qed.
